(** * Equal opportunity score (skfair/metrics/equal_opportunity_score.py)

    A shallow embedding of [equal_opportunity_score] and of the scoring
    function [impl] it returns, followed by the properties of the score.

    Modelling choices.
    - Labels and cell values are integers ([Z]).
    - A float64 is an exact canonical rational ([Qc]) or one of the special
      values [+inf], [-inf], [nan]; rounding is not modelled (every rate is a
      quotient of two counts).  Negative zero is not modelled.
    - Effects are explicit: the state of the estimator is threaded through
      [predict], and every call of [predict] and every warning issued during
      the call is appended to a log: the warnings of the scoring function
      itself ([warnings.warn]) and the RuntimeWarnings numpy issues for the
      two divisions of line 64 under its default error state ([divide] and
      [invalid] set to [warn]).  The log records that a warning was issued,
      not what the warning filters then do with it.
    - The operands of [&] are broadcast as numpy does for one-dimensional
      arrays (equal lengths, or one of them of length one), and a boolean
      index must have the length of the array it selects from.
    - An array carries its width and has rows of that width; a dataframe has
      distinct column labels, which may be names or integers.  A frame with
      a repeated label, where [X[label]] is a frame and not a column, is
      outside the model. *)

From Stdlib Require Import ZArith QArith Qcanon List Bool String Lia Sorted
  Permutation.
Import ListNotations.

Local Open Scope Z_scope.

(** ** numpy values *)

Module Np.

Inductive float64 : Type :=
| Fin (q : Qc)
| PInf
| NInf
| NaN.

Definition zero : float64 := Fin (Q2Qc 0).
Definition one : float64 := Fin (Q2Qc 1).

Definition isnan (x : float64) : bool :=
  match x with NaN => true | _ => false end.

Definition Qc_is_zero (q : Qc) : bool :=
  match (q ?= Q2Qc 0)%Qc with Eq => true | _ => false end.

Definition Qc_ltb (a b : Qc) : bool :=
  match (a ?= b)%Qc with Lt => true | _ => false end.

Definition Qc_leb (a b : Qc) : bool :=
  match (a ?= b)%Qc with Gt => false | _ => true end.

Definition neg_inf_if (b : bool) : float64 := if b then NInf else PInf.

(** [a / b] on float64 scalars: a finite quotient, an infinity for a non-zero
    numerator over zero, [nan] for 0/0 and inf/inf. *)
Definition div (a b : float64) : float64 :=
  match a, b with
  | NaN, _ | _, NaN => NaN
  | Fin x, Fin y =>
      if Qc_is_zero y
      then (if Qc_is_zero x then NaN else neg_inf_if (Qc_ltb x (Q2Qc 0)))
      else Fin (x / y)%Qc
  | Fin _, (PInf | NInf) => zero
  | PInf, Fin y => neg_inf_if (Qc_ltb y (Q2Qc 0))
  | NInf, Fin y => neg_inf_if (negb (Qc_ltb y (Q2Qc 0)))
  | (PInf | NInf), (PInf | NInf) => NaN
  end.

(** [x <= y] on non-nan values. *)
Definition leb (a b : float64) : bool :=
  match a, b with
  | NaN, _ | _, NaN => false
  | NInf, _ => true
  | _, PInf => true
  | Fin x, Fin y => Qc_leb x y
  | _, _ => false
  end.

(** [np.minimum]: the smaller operand, and [nan] as soon as one is [nan]. *)
Definition minimum (a b : float64) : float64 :=
  match a, b with
  | NaN, _ | _, NaN => NaN
  | _, _ => if leb a b then a else b
  end.

(** [np.all]. *)
Definition all (m : list bool) : bool := forallb (fun b => b) m.

(** [arr == v], element by element. *)
Definition eq (arr : list Z) (v : Z) : list bool := map (fun x => x =? v) arr.

(** [m1 | m2] and [m1 & m2] on masks of one length. *)
Fixpoint or (m1 m2 : list bool) : list bool :=
  match m1, m2 with
  | a :: m1', b :: m2' => (a || b)%bool :: or m1' m2'
  | _, _ => []
  end.

Fixpoint and (m1 m2 : list bool) : list bool :=
  match m1, m2 with
  | a :: m1', b :: m2' => (a && b)%bool :: and m1' m2'
  | _, _ => []
  end.

(** [arr[mask]] for a boolean mask of the length of [arr]. *)
Fixpoint getitem {A : Type} (arr : list A) (mask : list bool) : list A :=
  match arr, mask with
  | x :: arr', b :: mask' =>
      if b then x :: getitem arr' mask' else getitem arr' mask'
  | _, _ => []
  end.

Definition count_true (m : list bool) : nat :=
  List.length (filter (fun b => b) m).

(** [np.mean] of a boolean array: the fraction of [True]; [nan] when empty. *)
Definition mean (m : list bool) : float64 :=
  match m with
  | [] => NaN
  | _ :: _ =>
      Fin (Q2Qc (Z.of_nat (count_true m) # Pos.of_nat (List.length m)))
  end.

(** [np.unique]: the distinct values, ascending. *)
Fixpoint insert_unique (v : Z) (l : list Z) : list Z :=
  match l with
  | [] => [v]
  | x :: l' =>
      if v <? x then v :: l
      else if v =? x then l
      else x :: insert_unique v l'
  end.

Definition unique (arr : list Z) : list Z :=
  fold_right insert_unique [] arr.

(** The floating point errors numpy can report for a division. *)
Inductive fp_error : Type :=
| DivideByZero
| InvalidValue.

(** The errors flagged by [a / b]: a non-zero finite numerator over zero is
    a division by zero; 0/0 and inf/inf are invalid. *)
Definition div_errors (a b : float64) : list fp_error :=
  match a, b with
  | Fin x, Fin y =>
      if Qc_is_zero y
      then (if Qc_is_zero x then [InvalidValue] else [DivideByZero])
      else []
  | (PInf | NInf), (PInf | NInf) => [InvalidValue]
  | _, _ => []
  end.

(** Broadcasting of two one-dimensional operands: equal lengths, or one of
    them of length one, which is repeated; otherwise numpy raises. *)
Definition broadcast (a b : list Z) : option (list Z * list Z) :=
  if Nat.eqb (List.length a) (List.length b) then Some (a, b)
  else
    match b with
    | [v] => Some (a, repeat v (List.length a))
    | _ =>
        match a with
        | [u] => Some (repeat u (List.length b), b)
        | _ => None
        end
    end.

End Np.

(** ** Inputs *)

(** [sensitive_column]: an integer (a position in a numpy array, or an
    integer label of a dataframe) or a name (a label of a dataframe). *)
Inductive column_id : Type :=
| ColIndex (j : Z)
| ColName (name : string).

Definition column_id_eqb (a b : column_id) : bool :=
  match a, b with
  | ColIndex i, ColIndex j => i =? j
  | ColName s, ColName t => String.eqb s t
  | _, _ => false
  end.

Fixpoint distinct (labels : list column_id) : bool :=
  match labels with
  | [] => true
  | l :: labels' =>
      negb (existsb (column_id_eqb l) labels') && distinct labels'
  end.

(** A two-dimensional numpy array: its width and its rows, each of that
    width. *)
Record ndarray : Type := {
  ncols : nat;
  rows_of : list (list Z);
  rectangular :
    forallb (fun r => Nat.eqb (List.length r) ncols) rows_of = true
}.

(** A dataframe: its labelled columns, the labels distinct. *)
Record dataframe : Type := {
  columns : list (column_id * list Z);
  labels_distinct : distinct (map fst columns) = true
}.

(** [X]: a numpy array or a dataframe. *)
Inductive features : Type :=
| NdArray (a : ndarray)
| DataFrame (f : dataframe).

Inductive warning : Type :=
| RuntimeWarning_no_samples (positive_target : Z) (sensitive_column : column_id)
    (group : Z)
| RuntimeWarning_numpy (err : Np.fp_error).

Inductive exn : Type :=
| ValueError_not_binary (found : list Z)
| ValueError_broadcast
| IndexError
| KeyError
| EstimatorError (code : Z).

Inductive result (A : Type) : Type :=
| Ok (a : A)
| Raise (e : exn).
Arguments Ok {A} a.
Arguments Raise {A} e.

(** The value handed back to the caller: the literals [0] and [1] are Python
    integers, a computed score is a float64. *)
Inductive value : Type :=
| PyInt (n : Z)
| Float64 (x : Np.float64).

Definition to_float (v : value) : Np.float64 :=
  match v with
  | PyInt n => Np.Fin (Q2Qc (inject_Z n))
  | Float64 x => x
  end.

(** Position [j] in a sequence of length [n], negative positions counting
    from the end. *)
Definition py_index (n : nat) (j : Z) : option nat :=
  if (0 <=? j) && (j <? Z.of_nat n) then Some (Z.to_nat j)
  else if (- Z.of_nat n <=? j) && (j <? 0) then Some (Z.to_nat (Z.of_nat n + j))
  else None.

(** [a[:, j]]: the cell at position [j] of every row; the position is
    checked against the width of the array. *)
Definition ndarray_column (a : ndarray) (j : Z) : option (list Z) :=
  match py_index (ncols a) j with
  | None => None
  | Some k => Some (map (fun r => nth k r 0) (rows_of a))
  end.

(** [f[label]]: the column stored under the label. *)
Fixpoint lookup_column (cols : list (column_id * list Z)) (label : column_id)
  : option (list Z) :=
  match cols with
  | [] => None
  | (l, col) :: cols' =>
      if column_id_eqb l label then Some col else lookup_column cols' label
  end.

Definition dataframe_column (f : dataframe) (label : column_id)
  : option (list Z) :=
  lookup_column (columns f) label.

(** [X[:, sensitive_column] if isinstance(X, np.ndarray) else X[sensitive_column]] *)
Definition get_sensitive_col (sensitive_column : column_id) (X : features)
  : result (list Z) :=
  match X with
  | NdArray a =>
      match sensitive_column with
      | ColIndex j =>
          match ndarray_column a j with
          | Some col => Ok col
          | None => Raise IndexError
          end
      | ColName _ => Raise IndexError
      end
  | DataFrame f =>
      match dataframe_column f sensitive_column with
      | Some col => Ok col
      | None => Raise KeyError
      end
  end.

(** ** Effects *)

Inductive prediction : Type :=
| Predicted (y_hat : list Z)
| PredictRaised (code : Z).

Inductive event : Type :=
| CallPredict (X : features)
| Warn (w : warning).

Section Scorer.

(** The estimator is opaque: a state of its own and a [predict] that may
    read and change it, and either answers or raises an exception of its
    own, which the scoring function lets through. *)
Variable estimator_state : Type.

Record estimator : Type := {
  predict : features -> estimator_state -> estimator_state * prediction
}.

Record world : Type := {
  est : estimator_state;
  log : list event
}.

Definition M (A : Type) : Type := world -> world * result A.

Definition ret {A : Type} (a : A) : M A := fun w => (w, Ok a).

Definition raise {A : Type} (e : exn) : M A := fun w => (w, Raise e).

Definition bind {A B : Type} (m : M A) (k : A -> M B) : M B :=
  fun w =>
    match m w with
    | (w', Ok a) => k a w'
    | (w', Raise e) => (w', Raise e)
    end.

Definition lift {A : Type} (r : result A) : M A := fun w => (w, r).

Definition warn (msg : warning) : M unit :=
  fun w => ({| est := est w; log := log w ++ [Warn msg] |}, Ok tt).

Definition call_predict (e : estimator) (X : features) : M (list Z) :=
  fun w =>
    let (s', r) := predict e X (est w) in
    ({| est := s'; log := log w ++ [CallPredict X] |},
     match r with
     | Predicted y_hat => Ok y_hat
     | PredictRaised code => Raise (EstimatorError code)
     end).

(** The operands of [&] on lines 43 and 44, broadcast to one length. *)
Definition broadcast_operands (sensitive_col y_true : list Z)
  : M (list Z * list Z) :=
  match Np.broadcast sensitive_col y_true with
  | Some operands => ret operands
  | None => raise ValueError_broadcast
  end.

(** A boolean index must have the length of the array it selects from. *)
Definition check_index (y_hat mask_of : list Z) : M unit :=
  if negb (Nat.eqb (List.length y_hat) (List.length mask_of))
  then raise IndexError
  else ret tt.

(** [a / b] on float64 scalars under numpy's default error state: the
    quotient, after a RuntimeWarning for each error the division flags. *)
Definition np_divide (a b : Np.float64) : M Np.float64 :=
  fun w =>
    ({| est := est w;
        log := log w
               ++ map (fun err => Warn (RuntimeWarning_numpy err))
                    (Np.div_errors a b) |},
     Ok (Np.div a b)).

Notation "x <- m ;; k" := (bind m (fun x => k))
  (at level 61, m at next level, right associativity).
Notation "m ;;; k" := (bind m (fun _ => k))
  (at level 61, right associativity).

(** [y_hat[(sensitive_col == group) & (y_true == positive_target)]] *)
Definition y_given (group positive_target : Z)
  (sensitive_col y_true y_hat : list Z) : list Z :=
  Np.getitem y_hat
    (Np.and (Np.eq sensitive_col group) (Np.eq y_true positive_target)).

(** [np.mean(y_given == positive_target)] *)
Definition p_y1 (group positive_target : Z)
  (sensitive_col y_true y_hat : list Z) : Np.float64 :=
  Np.mean
    (Np.eq (y_given group positive_target sensitive_col y_true y_hat)
       positive_target).

Definition is_binary (sensitive_col : list Z) : bool :=
  Np.all (Np.or (Np.eq sensitive_col 0) (Np.eq sensitive_col 1)).

Definition impl (sensitive_column : column_id) (positive_target : Z)
  (e : estimator) (X : features) (y_true : list Z) : M value :=
  sensitive_col <- lift (get_sensitive_col sensitive_column X) ;;
  if negb (is_binary sensitive_col)
  then raise (ValueError_not_binary (Np.unique sensitive_col))
  else
    y_hat <- call_predict e X ;;
    operands <- broadcast_operands sensitive_col y_true ;;
    let z := fst operands in
    let y := snd operands in
    check_index y_hat z ;;;
    let y_given_z1_y1 := y_given 1 positive_target z y y_hat in
    let y_given_z0_y1 := y_given 0 positive_target z y y_hat in
    if Nat.eqb (List.length y_given_z1_y1) 0
    then
      warn (RuntimeWarning_no_samples positive_target sensitive_column 1) ;;;
      ret (PyInt 0)
    else if Nat.eqb (List.length y_given_z0_y1) 0
    then
      warn (RuntimeWarning_no_samples positive_target sensitive_column 0) ;;;
      ret (PyInt 0)
    else
      let p_y1_z1 := Np.mean (Np.eq y_given_z1_y1 positive_target) in
      let p_y1_z0 := Np.mean (Np.eq y_given_z0_y1 positive_target) in
      q1 <- np_divide p_y1_z1 p_y1_z0 ;;
      q0 <- np_divide p_y1_z0 p_y1_z1 ;;
      let score := Np.minimum q1 q0 in
      ret (if negb (Np.isnan score) then Float64 score else PyInt 1).

(** The factory: no work of its own, it returns the closure. *)
Definition equal_opportunity_score (sensitive_column : column_id)
  (positive_target : Z) : M (estimator -> features -> list Z -> M value) :=
  ret (impl sensitive_column positive_target).

End Scorer.

Arguments predict {estimator_state} e X s.
Arguments est {estimator_state} w.
Arguments log {estimator_state} w.
Arguments Build_world {estimator_state} est log.
Arguments impl {estimator_state} sensitive_column positive_target e X y_true w.
Arguments equal_opportunity_score {estimator_state} sensitive_column
  positive_target w.

(** The symmetric ratio of line 64, as a function of the two rates. *)
Definition ratio (p1 p0 : Np.float64) : Np.float64 :=
  Np.minimum (Np.div p1 p0) (Np.div p0 p1).

(** The sensitive column with the two groups swapped: [1 - z]. *)
Definition invert (z : list Z) : list Z := map (fun v => 1 - v) z.

(** What the caller receives: the score, or nothing when the call raised. *)
Definition returned {A : Type} (r : result A) : option A :=
  match r with
  | Ok a => Some a
  | Raise _ => None
  end.

(** The world after the call of [predict] made by the scoring function. *)
Definition predicted {S : Type} (w : world S) (s' : S) (X : features)
  : world S :=
  {| est := s'; log := log w ++ [CallPredict X] |}.

(** The warnings numpy issues for the two divisions of line 64. *)
Definition division_warnings (p1 p0 : Np.float64) : list event :=
  map (fun err => Warn (RuntimeWarning_numpy err))
    (Np.div_errors p1 p0 ++ Np.div_errors p0 p1).

(** The world after the two rates have been divided. *)
Definition scored {S : Type} (w : world S) (s' : S) (X : features)
  (p1 p0 : Np.float64) : world S :=
  {| est := s';
     log := (log w ++ [CallPredict X]) ++ division_warnings p1 p0 |}.

(** ** The docstring's reading of a rate

    The docstring gives the two rates as conditional probabilities,
    P(y_hat = 1 | z = g, y = 1), over the rows of the dataset.  A row is the
    triple of the sensitive value, the true label and the prediction. *)

Definition row : Type := (Z * (Z * Z))%type.

Definition rows (z y_true y_hat : list Z) : list row :=
  combine z (combine y_true y_hat).

(** The condition [z = g, y = positive_target] on a row. *)
Definition in_group (g positive_target : Z) (r : row) : bool :=
  (fst r =? g) && (fst (snd r) =? positive_target).

(** The event [y_hat = positive_target] on a row. *)
Definition predicted_positive (positive_target : Z) (r : row) : bool :=
  snd (snd r) =? positive_target.

(** The relative frequency of the event among the rows of the condition;
    undefined ([nan]) when no row meets the condition. *)
Definition cond_prob (g positive_target : Z) (rs : list row) : Np.float64 :=
  match filter (in_group g positive_target) rs with
  | [] => Np.NaN
  | r :: given =>
      Np.Fin
        (Q2Qc (Z.of_nat
                 (List.length
                    (filter (predicted_positive positive_target) (r :: given)))
               # Pos.of_nat (List.length (r :: given))))
  end.

(** ** The exits of the scoring function

    One constructor per way [impl] can end, with the world it leaves and
    what it hands back. *)
Inductive impl_run {S : Type} (sc : column_id) (pt : Z) (e : estimator S)
  (X : features) (y_true : list Z) (w : world S)
  : world S * result value -> Prop :=
| run_lookup_error (err : exn) :
    get_sensitive_col sc X = Raise err ->
    impl_run sc pt e X y_true w (w, Raise err)
| run_not_binary (z : list Z) :
    get_sensitive_col sc X = Ok z ->
    is_binary z = false ->
    impl_run sc pt e X y_true w
      (w, Raise (ValueError_not_binary (Np.unique z)))
| run_predict_raised (z : list Z) (s' : S) (code : Z) :
    get_sensitive_col sc X = Ok z ->
    is_binary z = true ->
    predict e X (est w) = (s', PredictRaised code) ->
    impl_run sc pt e X y_true w
      (predicted w s' X, Raise (EstimatorError code))
| run_broadcast_error (z yh : list Z) (s' : S) :
    get_sensitive_col sc X = Ok z ->
    is_binary z = true ->
    predict e X (est w) = (s', Predicted yh) ->
    Np.broadcast z y_true = None ->
    impl_run sc pt e X y_true w (predicted w s' X, Raise ValueError_broadcast)
| run_index_error (z yh zb yb : list Z) (s' : S) :
    get_sensitive_col sc X = Ok z ->
    is_binary z = true ->
    predict e X (est w) = (s', Predicted yh) ->
    Np.broadcast z y_true = Some (zb, yb) ->
    List.length yh <> List.length zb ->
    impl_run sc pt e X y_true w (predicted w s' X, Raise IndexError)
| run_group1_empty (z yh zb yb : list Z) (s' : S) :
    get_sensitive_col sc X = Ok z ->
    is_binary z = true ->
    predict e X (est w) = (s', Predicted yh) ->
    Np.broadcast z y_true = Some (zb, yb) ->
    List.length yh = List.length zb ->
    y_given 1 pt zb yb yh = [] ->
    impl_run sc pt e X y_true w
      ({| est := s';
          log := (log w ++ [CallPredict X])
                 ++ [Warn (RuntimeWarning_no_samples pt sc 1)] |},
       Ok (PyInt 0))
| run_group0_empty (z yh zb yb : list Z) (s' : S) :
    get_sensitive_col sc X = Ok z ->
    is_binary z = true ->
    predict e X (est w) = (s', Predicted yh) ->
    Np.broadcast z y_true = Some (zb, yb) ->
    List.length yh = List.length zb ->
    y_given 1 pt zb yb yh <> [] ->
    y_given 0 pt zb yb yh = [] ->
    impl_run sc pt e X y_true w
      ({| est := s';
          log := (log w ++ [CallPredict X])
                 ++ [Warn (RuntimeWarning_no_samples pt sc 0)] |},
       Ok (PyInt 0))
| run_score (z yh zb yb : list Z) (s' : S) :
    get_sensitive_col sc X = Ok z ->
    is_binary z = true ->
    predict e X (est w) = (s', Predicted yh) ->
    Np.broadcast z y_true = Some (zb, yb) ->
    List.length yh = List.length zb ->
    y_given 1 pt zb yb yh <> [] ->
    y_given 0 pt zb yb yh <> [] ->
    impl_run sc pt e X y_true w
      (scored w s' X (p_y1 1 pt zb yb yh) (p_y1 0 pt zb yb yh),
       Ok (let score :=
             ratio (p_y1 1 pt zb yb yh) (p_y1 0 pt zb yb yh) in
           if negb (Np.isnan score) then Float64 score else PyInt 1)).

(** ** Sample inputs *)

Module Sample.

(** An estimator that counts its calls and always predicts [y_hat]. *)
Definition counting_estimator (y_hat : list Z) : estimator nat :=
  {| predict := fun _ n => (S n, Predicted y_hat) |}.

Definition fresh : world nat := {| est := 0%nat; log := [] |}.

(** Six rows, the sensitive attribute in the second column. *)
Definition A6 : ndarray :=
  {| ncols := 2;
     rows_of := [[7; 0]; [4; 0]; [9; 0]; [2; 1]; [5; 1]; [8; 1]];
     rectangular := eq_refl |}.
Definition X6 : features := NdArray A6.

Definition z6 : list Z := [0; 0; 0; 1; 1; 1].
Definition y6 : list Z := [1; 1; 0; 1; 1; 0].
Definition y_hat6 : list Z := [1; 0; 0; 1; 0; 0].

(** The same rows with the two groups swapped. *)
Definition X6_swapped : features :=
  NdArray {| ncols := 2;
             rows_of := [[7; 1]; [4; 1]; [9; 1]; [2; 0]; [5; 0]; [8; 0]];
             rectangular := eq_refl |}.

(** Predictions with rates 1/2 in group 1 and 1 in group 0. *)
Definition y_hat6_uneven : list Z := [1; 1; 0; 1; 0; 0].

(** Labels with no positive row in group 1, and with none in group 0. *)
Definition y6_no_group1 : list Z := [1; 1; 0; 0; 0; 0].
Definition y6_no_group0 : list Z := [0; 0; 0; 1; 1; 0].

(** Two rows, one per group, both with the positive label. *)
Definition F2 : dataframe :=
  {| columns := [(ColName "age", [31; 52]); (ColName "sex", [0; 1])];
     labels_distinct := eq_refl |}.
Definition X2 : features := DataFrame F2.
Definition z2 : list Z := [0; 1].
Definition y2 : list Z := [1; 1].

(** Three rows whose sensitive column holds a 2. *)
Definition X3 : features :=
  NdArray {| ncols := 1; rows_of := [[0]; [2]; [1]];
             rectangular := eq_refl |}.
Definition z3 : list Z := [0; 2; 1].
Definition y3 : list Z := [1; 0; 1].

(** An estimator whose predict raises. *)
Definition failing_estimator (code : Z) : estimator nat :=
  {| predict := fun _ n => (S n, PredictRaised code) |}.

(** The six rows in reverse order. *)
Definition X6_reversed : features :=
  NdArray {| ncols := 2;
             rows_of := [[8; 1]; [5; 1]; [2; 1]; [9; 0]; [4; 0]; [7; 0]];
             rectangular := eq_refl |}.
Definition y6_reversed : list Z := [0; 1; 1; 0; 1; 1].
Definition y_hat6_uneven_reversed : list Z := [0; 0; 1; 0; 1; 1].

(** Other predictions: as [y_hat6] on being 1 where the label is 1. *)
Definition y_hat6_other : list Z := [1; 0; 1; 1; 7; 1].

(** The sensitive column of the six rows, in a dataframe. *)
Definition X6_frame : features :=
  DataFrame {| columns := [(ColName "income", [3; 1; 4; 1; 5; 9]);
                           (ColName "sex", z6)];
               labels_distinct := eq_refl |}.

(** A frame with integer labels, as built from an array, and an array
    without rows. *)
Definition F2_numbered : dataframe :=
  {| columns := [(ColIndex 0, [31; 52]); (ColIndex 1, [0; 1])];
     labels_distinct := eq_refl |}.
Definition A0 : ndarray :=
  {| ncols := 2; rows_of := []; rectangular := eq_refl |}.

End Sample.

(** ** Facts about the numpy primitives *)

Section NumpyFacts.

Lemma insert_unique_In (v x : Z) (l : list Z) :
  In x (Np.insert_unique v l) <-> x = v \/ In x l.
Proof.
  induction l as [|a l IH]; simpl.
  - intuition.
  - destruct (Z.ltb_spec v a) as [Hlt|Hge]; simpl; [intuition|].
    destruct (Z.eqb_spec v a) as [->|Hne]; simpl; [intuition|].
    rewrite IH. intuition.
Qed.

Lemma unique_In (x : Z) (arr : list Z) : In x (Np.unique arr) <-> In x arr.
Proof.
  induction arr as [|a arr IH]; simpl; [tauto|].
  unfold Np.unique in *. simpl. rewrite insert_unique_In, IH. intuition.
Qed.

Lemma insert_unique_HdRel (v a : Z) (l : list Z) :
  a < v -> HdRel Z.lt a l -> HdRel Z.lt a (Np.insert_unique v l).
Proof.
  intros Hav Hhd. destruct l as [|b l]; simpl; [now constructor|].
  inversion Hhd; subst.
  destruct (v <? b); [now constructor|].
  destruct (v =? b); now constructor.
Qed.

Lemma insert_unique_Sorted (v : Z) (l : list Z) :
  Sorted Z.lt l -> Sorted Z.lt (Np.insert_unique v l).
Proof.
  induction 1 as [|a l Hs IH Hhd]; simpl.
  - repeat constructor.
  - destruct (Z.ltb_spec v a) as [Hlt|Hge].
    + constructor; [now constructor | now constructor].
    + destruct (Z.eqb_spec v a) as [->|Hne]; [now constructor|].
      constructor; [exact IH|]. apply insert_unique_HdRel; [lia | exact Hhd].
Qed.

Lemma unique_sorted (arr : list Z) : StronglySorted Z.lt (Np.unique arr).
Proof.
  apply Sorted_StronglySorted; [intros x y z; apply Z.lt_trans|].
  induction arr as [|a arr IH]; [constructor|].
  apply insert_unique_Sorted. exact IH.
Qed.

Lemma is_binary_cons (v : Z) (z : list Z) :
  is_binary (v :: z) = ((v =? 0) || (v =? 1))%bool && is_binary z.
Proof. reflexivity. Qed.

Lemma is_binary_true (z : list Z) :
  is_binary z = true <-> (forall v, In v z -> v = 0 \/ v = 1).
Proof.
  induction z as [|a z IH].
  - split; [intros _ v []|reflexivity].
  - rewrite is_binary_cons, andb_true_iff, orb_true_iff, !Z.eqb_eq, IH.
    split.
    + intros [Ha Hz] v [<-|Hv]; auto.
    + intros H. split; [apply H; now left | intros v Hv; apply H; now right].
Qed.

Lemma is_binary_false (z : list Z) :
  is_binary z = false <-> (exists v, In v z /\ v <> 0 /\ v <> 1).
Proof.
  induction z as [|a z IH].
  - split; [discriminate | intros (v & [] & _)].
  - rewrite is_binary_cons, andb_false_iff, orb_false_iff, !Z.eqb_neq, IH.
    split.
    + intros [[H0 H1]|(v & Hv & Hne)].
      * exists a. split; [now left | now split].
      * exists v. split; [now right | exact Hne].
    + intros (v & [<-|Hv] & Hne); [now left | right; now exists v].
Qed.

(** Inverting the column swaps the two group masks, for every value. *)
Lemma eq_invert (z : list Z) :
  Np.eq (map (fun v => 1 - v) z) 1 = Np.eq z 0
  /\ Np.eq (map (fun v => 1 - v) z) 0 = Np.eq z 1.
Proof.
  unfold Np.eq. rewrite !map_map. split; apply map_ext; intros v.
  - destruct (Z.eqb_spec (1 - v) 1), (Z.eqb_spec v 0); lia || reflexivity.
  - destruct (Z.eqb_spec (1 - v) 0), (Z.eqb_spec v 1); lia || reflexivity.
Qed.

Lemma is_binary_invert (z : list Z) :
  is_binary (map (fun v => 1 - v) z) = is_binary z.
Proof.
  induction z as [|a z IH]; [reflexivity|].
  change (map (fun v => 1 - v) (a :: z))
    with ((1 - a) :: map (fun v => 1 - v) z).
  rewrite !is_binary_cons, IH. f_equal.
  destruct (Z.eqb_spec (1 - a) 0), (Z.eqb_spec (1 - a) 1),
    (Z.eqb_spec a 0), (Z.eqb_spec a 1); lia || reflexivity.
Qed.

(** The selected predictions are those at the rows of the subset. *)
Lemma y_given_In (g pt v : Z) (z y yh : list Z) :
  List.length y = List.length z -> List.length yh = List.length z ->
  (In v (y_given g pt z y yh) <->
   exists i, nth_error z i = Some g /\ nth_error y i = Some pt
             /\ nth_error yh i = Some v).
Proof.
  unfold y_given. revert y yh.
  induction z as [|a z IH]; intros [|b y] [|c yh] Hy Hyh; try discriminate.
  - simpl. split; [intros [] | intros ([|i] & H & _); discriminate].
  - simpl in Hy, Hyh. injection Hy as Hy. injection Hyh as Hyh.
    specialize (IH y yh Hy Hyh). simpl.
    destruct (Z.eqb_spec a g) as [Ha|Ha], (Z.eqb_spec b pt) as [Hb|Hb]; simpl;
      rewrite IH; split.
    all: try (intros [<-|(i & H)];
              [exists 0%nat; subst; auto | exists (S i); exact H]).
    all: try (intros (i & H); exists (S i); exact H).
    all: intros ([|i] & Hz & Hyt & Hp); simpl in *;
      try (right; exists i; auto); try (exists i; auto);
      try (left; congruence); try congruence.
Qed.

Lemma y_given_nil (g pt : Z) (z y yh : list Z) :
  List.length y = List.length z -> List.length yh = List.length z ->
  (y_given g pt z y yh = [] <->
   forall i, nth_error z i = Some g -> nth_error y i <> Some pt).
Proof.
  intros Hy Hyh. split.
  - intros Hnil i Hz Hyt.
    assert (Hi : (i < List.length yh)%nat).
    { rewrite Hyh. apply nth_error_Some. congruence. }
    apply nth_error_Some in Hi.
    destruct (nth_error yh i) as [v|] eqn:Hv; [|congruence].
    assert (Hin : In v (y_given g pt z y yh)).
    { apply y_given_In; auto. exists i; auto. }
    rewrite Hnil in Hin. exact Hin.
  - intros Hno. destruct (y_given g pt z y yh) as [|v l] eqn:E; [reflexivity|].
    assert (Hin : In v (y_given g pt z y yh)) by (rewrite E; now left).
    apply y_given_In in Hin; auto. destruct Hin as (i & Hz & Hyt & _).
    exfalso. exact (Hno i Hz Hyt).
Qed.

Lemma y_given_invert (pt : Z) (z y yh : list Z) :
  y_given 1 pt (map (fun v => 1 - v) z) y yh = y_given 0 pt z y yh
  /\ y_given 0 pt (map (fun v => 1 - v) z) y yh = y_given 1 pt z y yh.
Proof.
  unfold y_given. destruct (eq_invert z) as [-> ->]. split; reflexivity.
Qed.

End NumpyFacts.

(** ** Facts about rates and their ratio *)

Section RateFacts.

Local Open Scope Qc_scope.

Lemma Qc_is_zero_true (q : Qc) : Np.Qc_is_zero q = true <-> q = 0.
Proof.
  unfold Np.Qc_is_zero. rewrite Qceq_alt.
  destruct (q ?= 0); split; congruence.
Qed.

Lemma Qc_is_zero_false (q : Qc) : Np.Qc_is_zero q = false <-> q <> 0.
Proof.
  rewrite <- Qc_is_zero_true. destruct (Np.Qc_is_zero q); split; congruence.
Qed.

Lemma Qc_leb_true (a b : Qc) : Np.Qc_leb a b = true <-> a <= b.
Proof.
  unfold Np.Qc_leb. rewrite Qcle_alt.
  destruct (a ?= b); split; congruence.
Qed.

Lemma Qc_leb_false (a b : Qc) : Np.Qc_leb a b = false <-> b < a.
Proof.
  unfold Np.Qc_leb. rewrite (Qcgt_alt a b).
  destruct (a ?= b); split; congruence.
Qed.

Lemma Qc_ltb_pos (a : Qc) : 0 <= a -> Np.Qc_ltb a 0 = false.
Proof.
  intros H. unfold Np.Qc_ltb. destruct (a ?= 0) eqn:E; try reflexivity.
  apply Qclt_alt in E. exfalso. exact (Qcle_not_lt _ _ H E).
Qed.

Lemma Qc_pos_of_nonneg (a : Qc) : 0 <= a -> a <> 0 -> 0 < a.
Proof.
  intros H Hne. destruct (Qcle_lt_or_eq _ _ H) as [Hlt|Heq]; [exact Hlt|].
  congruence.
Qed.

Lemma Qcinv_pos (a : Qc) : 0 < a -> 0 < / a.
Proof.
  intros H. unfold Qclt, Qcinv, Q2Qc in *. simpl in *.
  rewrite Qred_correct. apply Qinv_lt_0_compat. exact H.
Qed.

Lemma Qcdiv_pos (a b : Qc) : 0 < a -> 0 < b -> 0 < a / b.
Proof.
  intros Ha Hb. apply Qcinv_pos in Hb.
  unfold Qcdiv. apply (Qcmult_lt_compat_r 0 a (/ b)) in Ha; [|exact Hb].
  rewrite Qcmult_0_l in Ha. exact Ha.
Qed.

Lemma Qcdiv_le_1 (a b : Qc) : 0 < b -> a <= b -> a / b <= 1.
Proof.
  intros Hb Hab. unfold Qcdiv.
  rewrite <- (Qcmult_inv_r b) by (apply not_eq_sym, Qclt_not_eq; exact Hb).
  apply Qcmult_le_compat_r; [exact Hab|].
  apply Qclt_le_weak, Qcinv_pos. exact Hb.
Qed.

Lemma Qcdiv_0_l (b : Qc) : 0 / b = 0.
Proof. unfold Qcdiv. apply Qcmult_0_l. Qed.

Lemma Qcdiv_same (a : Qc) : a <> 0 -> a / a = 1.
Proof. intros H. unfold Qcdiv. apply Qcmult_inv_r. exact H. Qed.

Lemma minimum_comm (a b : Np.float64) : Np.minimum a b = Np.minimum b a.
Proof.
  destruct a as [x| | |], b as [y| | |]; simpl; try reflexivity.
  destruct (Np.Qc_leb x y) eqn:Exy, (Np.Qc_leb y x) eqn:Eyx; try reflexivity.
  - apply Qc_leb_true in Exy, Eyx. f_equal. apply Qcle_antisym; assumption.
  - apply Qc_leb_false in Exy, Eyx. exfalso.
    exact (Qclt_not_le _ _ Exy (Qclt_le_weak _ _ Eyx)).
Qed.

Lemma ratio_comm (p1 p0 : Np.float64) : ratio p1 p0 = ratio p0 p1.
Proof. apply minimum_comm. Qed.

Lemma ratio_zero_zero : ratio Np.zero Np.zero = Np.NaN.
Proof. reflexivity. Qed.

Lemma ratio_zero_l (b : Qc) : 0 < b -> ratio Np.zero (Np.Fin b) = Np.zero.
Proof.
  intros Hb. unfold ratio, Np.zero, Np.div.
  assert (Eb : Np.Qc_is_zero b = false).
  { apply Qc_is_zero_false, not_eq_sym, Qclt_not_eq, Hb. }
  rewrite Eb, (Qc_ltb_pos b (Qclt_le_weak _ _ Hb)).
  change (Np.Qc_is_zero 0) with true. cbn iota.
  rewrite Qcdiv_0_l. reflexivity.
Qed.

Lemma ratio_pos (a b : Qc) :
  0 < a -> 0 < b ->
  exists q, ratio (Np.Fin a) (Np.Fin b) = Np.Fin q /\ 0 < q /\ q <= 1.
Proof.
  intros Ha Hb. unfold ratio, Np.div.
  assert (Ea : Np.Qc_is_zero a = false).
  { apply Qc_is_zero_false, not_eq_sym, Qclt_not_eq, Ha. }
  assert (Eb : Np.Qc_is_zero b = false).
  { apply Qc_is_zero_false, not_eq_sym, Qclt_not_eq, Hb. }
  rewrite Ea, Eb. simpl.
  destruct (Np.Qc_leb (a / b) (b / a)) eqn:E.
  - exists (a / b). split; [reflexivity|]. split; [now apply Qcdiv_pos|].
    apply Qc_leb_true in E.
    destruct (Qclt_le_dec b a) as [Hlt|Hle]; [|now apply Qcdiv_le_1].
    apply Qcle_trans with (b / a); [exact E|].
    apply Qcdiv_le_1; [exact Ha | now apply Qclt_le_weak].
  - exists (b / a). split; [reflexivity|]. split; [now apply Qcdiv_pos|].
    apply Qc_leb_false in E.
    destruct (Qclt_le_dec a b) as [Hlt|Hle]; [|now apply Qcdiv_le_1].
    apply Qclt_le_weak, Qclt_le_trans with (a / b); [exact E|].
    apply Qcdiv_le_1; [exact Hb | now apply Qclt_le_weak].
Qed.

Lemma ratio_same (a : Qc) : a <> 0 -> ratio (Np.Fin a) (Np.Fin a) = Np.one.
Proof.
  intros Ha. unfold ratio, Np.div.
  apply Qc_is_zero_false in Ha as E. rewrite E, (Qcdiv_same a Ha). reflexivity.
Qed.

Lemma count_true_le (m : list bool) : (Np.count_true m <= List.length m)%nat.
Proof. unfold Np.count_true. apply filter_length_le. Qed.

Lemma Zpos_of_nat_succ (n : nat) : Z.pos (Pos.of_nat (S n)) = Z.of_nat (S n).
Proof.
  rewrite <- positive_nat_Z, Nat2Pos.id by discriminate. reflexivity.
Qed.

(** A rate over a non-empty selection is a rational of [0, 1]. *)
Lemma mean_range (m : list bool) :
  m <> [] -> exists q, Np.mean m = Np.Fin q /\ 0 <= q /\ q <= 1.
Proof.
  destruct m as [|b m]; [congruence|]. intros _.
  eexists. split; [reflexivity|].
  pose proof (count_true_le (b :: m)) as Hle.
  set (k := Np.count_true (b :: m)) in *. cbn [List.length] in *.
  unfold Qcle, Q2Qc; cbn [this].
  split.
  - setoid_rewrite Qred_correct.
    unfold Qle; cbn [Qnum Qden]. lia.
  - setoid_rewrite Qred_correct.
    unfold Qle; cbn [Qnum Qden]. rewrite Zpos_of_nat_succ. lia.
Qed.

Lemma mean_zero (m : list bool) :
  m <> [] -> (Np.mean m = Np.zero <-> Np.count_true m = 0%nat).
Proof.
  destruct m as [|b m]; [congruence|]. intros _.
  unfold Np.mean, Np.zero. split.
  - intros H.
    apply (f_equal (fun x => match x with Np.Fin q => q | _ => 0 end)) in H.
    cbv beta iota in H. apply Q2Qc_eq_iff in H.
    unfold Qeq in H; cbn [Qnum Qden] in H. lia.
  - intros ->. f_equal. apply Q2Qc_eq_iff. reflexivity.
Qed.

Lemma count_true_eq_zero (l : list Z) (pt : Z) :
  Np.count_true (Np.eq l pt) = 0%nat <-> (forall v, In v l -> v <> pt).
Proof.
  unfold Np.count_true, Np.eq. induction l as [|a l IH]; simpl.
  - split; [intros _ v [] | reflexivity].
  - destruct (Z.eqb_spec a pt) as [Ha|Ha]; simpl.
    + split; [discriminate | intros H; exfalso; apply (H a); auto].
    + rewrite IH. split.
      * intros H v [<-|Hv]; auto.
      * intros H v Hv. apply H. now right.
Qed.

End RateFacts.

(** ** Runs of the scoring function *)

Lemma broadcast_aligned (z y : list Z) :
  List.length y = List.length z -> Np.broadcast z y = Some (z, y).
Proof.
  intros H. unfold Np.broadcast. rewrite H, Nat.eqb_refl. reflexivity.
Qed.

Lemma broadcast_invert (z y : list Z) :
  Np.broadcast (invert z) y
  = match Np.broadcast z y with
    | Some (zb, yb) => Some (invert zb, yb)
    | None => None
    end.
Proof.
  unfold Np.broadcast, invert. rewrite length_map.
  destruct (Nat.eqb (List.length z) (List.length y)); [reflexivity|].
  destruct y as [|v [|v' y]]; try reflexivity;
    destruct z as [|u [|u' z]]; try reflexivity.
  cbn [map List.length]. rewrite map_repeat. reflexivity.
Qed.

Section Runs.

Variable S : Type.
Variables (sc : column_id) (pt : Z) (e : estimator S) (X : features).
Variables (y_true : list Z) (w : world S).

Ltac run_impl :=
  unfold impl, bind, lift, call_predict, broadcast_operands, check_index,
    np_divide, raise, ret, warn, predicted, scored, division_warnings.

Lemma impl_column_error (err : exn) :
  get_sensitive_col sc X = Raise err ->
  impl sc pt e X y_true w = (w, Raise err).
Proof. intros H. run_impl. rewrite H. reflexivity. Qed.

Lemma impl_not_binary (z : list Z) :
  get_sensitive_col sc X = Ok z ->
  is_binary z = false ->
  impl sc pt e X y_true w = (w, Raise (ValueError_not_binary (Np.unique z))).
Proof. intros Hc Hb. run_impl. rewrite Hc, Hb. reflexivity. Qed.

Lemma impl_predict_raises (z : list Z) (s' : S) (code : Z) :
  get_sensitive_col sc X = Ok z ->
  is_binary z = true ->
  predict e X (est w) = (s', PredictRaised code) ->
  impl sc pt e X y_true w = (predicted w s' X, Raise (EstimatorError code)).
Proof.
  intros Hc Hb Hp. run_impl. rewrite Hc, Hb. cbv beta iota.
  cbn [negb est log]. rewrite Hp. reflexivity.
Qed.

Lemma impl_broadcast_error (z yh : list Z) (s' : S) :
  get_sensitive_col sc X = Ok z ->
  is_binary z = true ->
  predict e X (est w) = (s', Predicted yh) ->
  Np.broadcast z y_true = None ->
  impl sc pt e X y_true w = (predicted w s' X, Raise ValueError_broadcast).
Proof.
  intros Hc Hb Hp Hbr. run_impl. rewrite Hc, Hb. cbv beta iota.
  cbn [negb est log]. rewrite Hp. cbv beta iota. rewrite Hbr. reflexivity.
Qed.

Section Broadcast.

Variables (z yh zb yb : list Z) (s' : S).
Hypothesis Hcol : get_sensitive_col sc X = Ok z.
Hypothesis Hbin : is_binary z = true.
Hypothesis Hpred : predict e X (est w) = (s', Predicted yh).
Hypothesis Hbr : Np.broadcast z y_true = Some (zb, yb).

Ltac run_to_index :=
  run_impl; rewrite Hcol, Hbin; cbv beta iota; cbn [negb est log];
  rewrite Hpred; cbv beta iota; rewrite Hbr; cbv beta iota zeta;
  cbn [fst snd].

Lemma impl_index_error_b :
  List.length yh <> List.length zb ->
  impl sc pt e X y_true w = (predicted w s' X, Raise IndexError).
Proof.
  intros Hl. run_to_index. apply Nat.eqb_neq in Hl. rewrite Hl.
  reflexivity.
Qed.

Hypothesis Hyh : List.length yh = List.length zb.

Ltac run_selected :=
  run_to_index; rewrite Hyh, Nat.eqb_refl; cbn [negb]; cbv beta iota.

Lemma impl_group1_empty_b :
  y_given 1 pt zb yb yh = [] ->
  impl sc pt e X y_true w =
  ({| est := s';
      log := (log w ++ [CallPredict X])
             ++ [Warn (RuntimeWarning_no_samples pt sc 1)] |},
   Ok (PyInt 0)).
Proof. intros H1. run_selected. rewrite H1. reflexivity. Qed.

Lemma impl_group0_empty_b :
  y_given 1 pt zb yb yh <> [] ->
  y_given 0 pt zb yb yh = [] ->
  impl sc pt e X y_true w =
  ({| est := s';
      log := (log w ++ [CallPredict X])
             ++ [Warn (RuntimeWarning_no_samples pt sc 0)] |},
   Ok (PyInt 0)).
Proof.
  intros H1 H0. run_selected. rewrite H0.
  destruct (y_given 1 pt zb yb yh); [congruence | reflexivity].
Qed.

Lemma impl_score_b :
  y_given 1 pt zb yb yh <> [] ->
  y_given 0 pt zb yb yh <> [] ->
  impl sc pt e X y_true w =
  (scored w s' X (p_y1 1 pt zb yb yh) (p_y1 0 pt zb yb yh),
   Ok (let score := ratio (p_y1 1 pt zb yb yh) (p_y1 0 pt zb yb yh) in
       if negb (Np.isnan score) then Float64 score else PyInt 1)).
Proof.
  intros H1 H0. run_selected. unfold p_y1, ratio.
  destruct (y_given 1 pt zb yb yh); [congruence|].
  destruct (y_given 0 pt zb yb yh); [congruence|].
  cbn [Nat.eqb List.length est log]. rewrite map_app, app_assoc.
  reflexivity.
Qed.

End Broadcast.

Lemma impl_index_error (z yh : list Z) (s' : S) :
  get_sensitive_col sc X = Ok z ->
  is_binary z = true ->
  predict e X (est w) = (s', Predicted yh) ->
  List.length z = List.length y_true ->
  List.length yh <> List.length z ->
  impl sc pt e X y_true w = (predicted w s' X, Raise IndexError).
Proof.
  intros Hc Hb Hp Hl Hl'.
  apply (impl_index_error_b z yh z y_true s' Hc Hb Hp); [|exact Hl'].
  apply broadcast_aligned. symmetry. exact Hl.
Qed.

Section Aligned.

Variables (z yh : list Z) (s' : S).
Hypothesis Hcol : get_sensitive_col sc X = Ok z.
Hypothesis Hbin : is_binary z = true.
Hypothesis Hpred : predict e X (est w) = (s', Predicted yh).
Hypothesis Hy : List.length y_true = List.length z.
Hypothesis Hyh : List.length yh = List.length z.

Lemma impl_group1_empty :
  y_given 1 pt z y_true yh = [] ->
  impl sc pt e X y_true w =
  ({| est := s';
      log := (log w ++ [CallPredict X])
             ++ [Warn (RuntimeWarning_no_samples pt sc 1)] |},
   Ok (PyInt 0)).
Proof.
  apply (impl_group1_empty_b z yh z y_true s' Hcol Hbin Hpred
           (broadcast_aligned z y_true Hy) Hyh).
Qed.

Lemma impl_group0_empty :
  y_given 1 pt z y_true yh <> [] ->
  y_given 0 pt z y_true yh = [] ->
  impl sc pt e X y_true w =
  ({| est := s';
      log := (log w ++ [CallPredict X])
             ++ [Warn (RuntimeWarning_no_samples pt sc 0)] |},
   Ok (PyInt 0)).
Proof.
  apply (impl_group0_empty_b z yh z y_true s' Hcol Hbin Hpred
           (broadcast_aligned z y_true Hy) Hyh).
Qed.

Lemma impl_score :
  y_given 1 pt z y_true yh <> [] ->
  y_given 0 pt z y_true yh <> [] ->
  impl sc pt e X y_true w =
  (scored w s' X (p_y1 1 pt z y_true yh) (p_y1 0 pt z y_true yh),
   Ok (let score := ratio (p_y1 1 pt z y_true yh) (p_y1 0 pt z y_true yh) in
       if negb (Np.isnan score) then Float64 score else PyInt 1)).
Proof.
  apply (impl_score_b z yh z y_true s' Hcol Hbin Hpred
           (broadcast_aligned z y_true Hy) Hyh).
Qed.

End Aligned.

End Runs.

(** ** The warnings of the two divisions *)

Section DivisionWarnings.

Local Open Scope Qc_scope.

Variable S : Type.
Variables (w : world S) (s' : S) (X : features).

Lemma scored_positive (a b : Qc) :
  0 < a -> 0 < b ->
  scored w s' X (Np.Fin a) (Np.Fin b) = predicted w s' X.
Proof.
  intros Ha Hb. unfold scored, predicted, division_warnings, Np.div_errors.
  assert (Ea : Np.Qc_is_zero a = false).
  { apply Qc_is_zero_false, not_eq_sym, Qclt_not_eq, Ha. }
  assert (Eb : Np.Qc_is_zero b = false).
  { apply Qc_is_zero_false, not_eq_sym, Qclt_not_eq, Hb. }
  rewrite Ea, Eb. cbn [app map]. rewrite app_nil_r. reflexivity.
Qed.

Lemma scored_zero_zero :
  scored w s' X Np.zero Np.zero
  = {| est := s';
       log := log w
              ++ [CallPredict X;
                  Warn (RuntimeWarning_numpy Np.InvalidValue);
                  Warn (RuntimeWarning_numpy Np.InvalidValue)] |}.
Proof. unfold scored. rewrite <- app_assoc. reflexivity. Qed.

Lemma scored_zero_l (b : Qc) :
  0 < b ->
  scored w s' X Np.zero (Np.Fin b)
  = {| est := s';
       log := log w
              ++ [CallPredict X;
                  Warn (RuntimeWarning_numpy Np.DivideByZero)] |}.
Proof.
  intros Hb. unfold scored, division_warnings, Np.div_errors, Np.zero.
  assert (Eb : Np.Qc_is_zero b = false).
  { apply Qc_is_zero_false, not_eq_sym, Qclt_not_eq, Hb. }
  rewrite Eb. change (Np.Qc_is_zero (Q2Qc 0)) with true. cbn [app map].
  rewrite <- app_assoc. reflexivity.
Qed.

Lemma scored_zero_r (a : Qc) :
  0 < a ->
  scored w s' X (Np.Fin a) Np.zero
  = {| est := s';
       log := log w
              ++ [CallPredict X;
                  Warn (RuntimeWarning_numpy Np.DivideByZero)] |}.
Proof.
  intros Ha. unfold scored, division_warnings, Np.div_errors, Np.zero.
  assert (Ea : Np.Qc_is_zero a = false).
  { apply Qc_is_zero_false, not_eq_sym, Qclt_not_eq, Ha. }
  rewrite Ea. change (Np.Qc_is_zero (Q2Qc 0)) with true. cbn [app map].
  rewrite <- app_assoc. reflexivity.
Qed.

End DivisionWarnings.

(** ** Properties of the scoring function *)

Lemma zero_neq_one : Np.zero <> Np.one.
Proof.
  intros H.
  apply (f_equal (fun x => match x with Np.Fin q => q | _ => Q2Qc 0 end)) in H.
  cbv beta iota delta [Np.zero Np.one] in H.
  apply Q2Qc_eq_iff in H. discriminate H.
Qed.

Lemma Fin_Q2Qc_eq (a b : Q) :
  Np.Fin (Q2Qc a) = Np.Fin (Q2Qc b) -> (a == b)%Q.
Proof.
  intros H.
  apply (f_equal (fun x => match x with Np.Fin q => q | _ => Q2Qc 0 end)) in H.
  cbv beta iota in H. apply Q2Qc_eq_iff in H. exact H.
Qed.

Lemma half_neq_zero : Q2Qc (1 # 2) <> Q2Qc 0.
Proof. intros H. apply Q2Qc_eq_iff in H. discriminate H. Qed.

Lemma half_pos : (Q2Qc 0 < Q2Qc (1 # 2))%Qc.
Proof. reflexivity. Qed.

(** Equality of two float64 results whose rationals have the same value. *)
Ltac float_eq :=
  repeat (apply (f_equal (@Ok value)) || apply (f_equal Float64)
          || apply (f_equal Np.Fin));
  apply Qc_is_canon; vm_compute; reflexivity.

Section General.

Variable S : Type.
Variables (sc : column_id) (pt : Z) (e : estimator S).

(** C1. The end-to-end example: z = [0,0,0,1,1,1], y_true = [1,1,0,1,1,0],
    predictions [1,0,0,1,0,0], positive target 1.  The rows of group 0 with a
    positive label are 0 and 1, those of group 1 are 3 and 4, the selected
    predictions are [1,0] in both groups, both rates are 1/2, and the call
    returns the float 1.0 after one call of predict and no warning. *)
Theorem C1_end_to_end (X : features) (w : world S) (s' : S) :
  get_sensitive_col sc X = Ok Sample.z6 ->
  predict e X (est w) = (s', Predicted Sample.y_hat6) ->
  (forall i, nth_error Sample.z6 i = Some 0 /\ nth_error Sample.y6 i = Some 1
             <-> i = 0%nat \/ i = 1%nat)
  /\ (forall i, nth_error Sample.z6 i = Some 1 /\ nth_error Sample.y6 i = Some 1
                <-> i = 3%nat \/ i = 4%nat)
  /\ y_given 0 1 Sample.z6 Sample.y6 Sample.y_hat6 = [1; 0]
  /\ y_given 1 1 Sample.z6 Sample.y6 Sample.y_hat6 = [1; 0]
  /\ p_y1 0 1 Sample.z6 Sample.y6 Sample.y_hat6 = Np.Fin (Q2Qc (1 # 2))
  /\ p_y1 1 1 Sample.z6 Sample.y6 Sample.y_hat6 = Np.Fin (Q2Qc (1 # 2))
  /\ impl sc 1 e X Sample.y6 w = (predicted w s' X, Ok (Float64 Np.one)).
Proof.
  intros Hcol Hpred.
  assert (Hp0 : p_y1 0 1 Sample.z6 Sample.y6 Sample.y_hat6
                = Np.Fin (Q2Qc (1 # 2))) by reflexivity.
  assert (Hp1 : p_y1 1 1 Sample.z6 Sample.y6 Sample.y_hat6
                = Np.Fin (Q2Qc (1 # 2))) by reflexivity.
  assert (Hidx : forall (g : Z) (a b : nat),
             (forall i, (i < 6)%nat ->
                        nth_error Sample.z6 i = Some g
                        /\ nth_error Sample.y6 i = Some 1 ->
                        i = a \/ i = b) ->
             nth_error Sample.z6 a = Some g -> nth_error Sample.y6 a = Some 1 ->
             nth_error Sample.z6 b = Some g -> nth_error Sample.y6 b = Some 1 ->
             forall i, nth_error Sample.z6 i = Some g
                       /\ nth_error Sample.y6 i = Some 1 <-> i = a \/ i = b).
  { intros g a b Hsmall Hza Hya Hzb Hyb i. split.
    - intros [Hz Hy]. apply Hsmall; [|now split].
      change 6%nat with (List.length Sample.z6). apply nth_error_Some.
      congruence.
    - intros [-> | ->]; now split. }
  split; [|split; [|repeat split; try reflexivity]].
  - apply Hidx; try reflexivity.
    intros i Hi [Hz Hy].
    do 6 (destruct i as [|i]; [simpl in *; auto; congruence|]). lia.
  - apply Hidx; try reflexivity.
    intros i Hi [Hz Hy].
    do 6 (destruct i as [|i]; [simpl in *; auto; congruence|]). lia.
  - rewrite (impl_score S sc 1 e X Sample.y6 w Sample.z6 Sample.y_hat6 s');
      try reflexivity; try assumption; try discriminate.
    rewrite Hp0, Hp1, (ratio_same _ half_neq_zero).
    rewrite (scored_positive S w s' X _ _ half_pos half_pos). reflexivity.
Qed.

(** C3 (as amended).  When the sensitive column holds a value other than 0
    and 1 the call raises the invalid-input error, and the values it reports
    are the distinct values of the whole column in ascending order (the
    offending ones among them); when the column holds only 0s and 1s that
    error is not raised, whatever their distribution. *)
Theorem C3_validation (X : features) (y_true : list Z) (w : world S)
  (z : list Z) :
  get_sensitive_col sc X = Ok z ->
  ((exists v, In v z /\ v <> 0 /\ v <> 1) ->
   snd (impl sc pt e X y_true w) = Raise (ValueError_not_binary (Np.unique z))
   /\ (forall v, In v (Np.unique z) <-> In v z)
   /\ StronglySorted Z.lt (Np.unique z))
  /\ ((forall v, In v z -> v = 0 \/ v = 1) ->
      forall found,
        snd (impl sc pt e X y_true w) <> Raise (ValueError_not_binary found)).
Proof.
  intros Hcol. split.
  - intros Hbad. apply is_binary_false in Hbad.
    rewrite (impl_not_binary S sc pt e X y_true w z Hcol Hbad).
    split; [reflexivity|]. split; [intros v; apply unique_In|].
    apply unique_sorted.
  - intros Hbin found. apply is_binary_true in Hbin.
    unfold impl, bind, lift, call_predict, broadcast_operands, check_index,
      np_divide, raise, ret, warn.
    rewrite Hcol, Hbin. cbv beta iota. cbn [negb est log].
    destruct (predict e X (est w)) as [s' [yh|code]]; cbv beta iota;
      [|discriminate].
    destruct (Np.broadcast z y_true) as [[zb yb]|]; cbv beta iota zeta;
      [|discriminate].
    repeat match goal with
           | |- context [if ?b then _ else _] => destruct b; cbn [snd]
           end; discriminate.
Qed.

(** C10.  On a column that fails validation the call raises before predict
    is invoked: the world comes back as it was, so the state of the estimator
    is untouched and no call of predict is logged. *)
Theorem C10_no_predict_on_invalid (X : features) (y_true : list Z)
  (w : world S) (z : list Z) :
  get_sensitive_col sc X = Ok z ->
  (exists v, In v z /\ v <> 0 /\ v <> 1) ->
  impl sc pt e X y_true w = (w, Raise (ValueError_not_binary (Np.unique z)))
  /\ est (fst (impl sc pt e X y_true w)) = est w
  /\ log (fst (impl sc pt e X y_true w)) = log w.
Proof.
  intros Hcol Hbad. apply is_binary_false in Hbad.
  rewrite (impl_not_binary S sc pt e X y_true w z Hcol Hbad).
  repeat split.
Qed.

(** The answer of a call depends on the world only through what predict
    answers there. *)
Lemma impl_result_world (X : features) (y_true : list Z) (w1 w2 : world S) :
  snd (predict e X (est w1)) = snd (predict e X (est w2)) ->
  snd (impl sc pt e X y_true w1) = snd (impl sc pt e X y_true w2).
Proof.
  intros H.
  unfold impl, bind, lift, call_predict, broadcast_operands, check_index,
    np_divide, raise, ret, warn.
  destruct (get_sensitive_col sc X) as [z|err]; [|reflexivity].
  destruct (is_binary z); cbn [negb]; [|reflexivity].
  destruct (predict e X (est w1)) as [s1 r1].
  destruct (predict e X (est w2)) as [s2 r2].
  cbn [snd] in H. subst r2. destruct r1 as [yh|code]; [|reflexivity].
  cbv beta iota.
  destruct (Np.broadcast z y_true) as [[zb yb]|]; cbv beta iota zeta;
    [|reflexivity].
  repeat match goal with
         | |- context [if ?b then _ else _] => destruct b; cbn [snd]
         end; reflexivity.
Qed.

(** C9.  The factory answers for every column identifier and positive
    target, raising nothing and leaving the world as it is (no validation,
    no event); and the function it returns keeps nothing between calls: with
    an estimator whose predictions do not depend on its state, a second call
    on the same arguments, made in the world the first call left, gives the
    same answer. *)
Theorem C9_factory_stateless :
  (forall w : world S,
      equal_opportunity_score sc pt w = (w, Ok (impl sc pt)))
  /\ (forall (X : features) (y_true : list Z) (w : world S),
         (forall s1 s2, snd (predict e X s1) = snd (predict e X s2)) ->
         snd (impl sc pt e X y_true (fst (impl sc pt e X y_true w)))
         = snd (impl sc pt e X y_true w)).
Proof.
  split; [reflexivity|].
  intros X y_true w Hdet. apply impl_result_world. apply Hdet.
Qed.

End General.

Section Symmetry.

Variable S : Type.
Variables (sc : column_id) (pt : Z) (e : estimator S).

(** C6.  Replacing the sensitive column z by 1 - z, with the labels and the
    predictions unchanged, leaves the returned score unchanged (and a call
    that raises still raises). *)
Theorem C6_symmetry (X X' : features) (y_true : list Z) (w : world S)
  (z : list Z) :
  get_sensitive_col sc X = Ok z ->
  get_sensitive_col sc X' = Ok (invert z) ->
  snd (predict e X (est w)) = snd (predict e X' (est w)) ->
  returned (snd (impl sc pt e X y_true w))
  = returned (snd (impl sc pt e X' y_true w)).
Proof.
  intros Hcol Hcol' Hsame.
  pose proof (broadcast_invert z y_true) as Hbi. unfold invert in *.
  pose proof (is_binary_invert z) as Hinv.
  destruct (is_binary z) eqn:Hbin.
  2:{ rewrite (impl_not_binary S sc pt e X y_true w z Hcol Hbin).
      rewrite (impl_not_binary S sc pt e X' y_true w _ Hcol' Hinv).
      reflexivity. }
  destruct (predict e X (est w)) as [s1 r1] eqn:Hp.
  destruct (predict e X' (est w)) as [s2 r2] eqn:Hp'.
  cbn [snd] in Hsame. subst r2. destruct r1 as [yh|code].
  2:{ rewrite (impl_predict_raises S sc pt e X y_true w z s1 code Hcol Hbin Hp).
      rewrite (impl_predict_raises S sc pt e X' y_true w _ s2 code
                 Hcol' Hinv Hp').
      reflexivity. }
  destruct (Np.broadcast z y_true) as [[zb yb]|] eqn:Hbr.
  2:{ rewrite (impl_broadcast_error S sc pt e X y_true w z yh s1
                 Hcol Hbin Hp Hbr).
      rewrite (impl_broadcast_error S sc pt e X' y_true w _ yh s2
                 Hcol' Hinv Hp' Hbi).
      reflexivity. }
  set (zb' := map (fun v => 1 - v) zb) in *.
  assert (Hlen : List.length zb' = List.length zb) by apply length_map.
  destruct (Nat.eq_dec (List.length yh) (List.length zb)) as [Hl|Hl].
  2:{ rewrite (impl_index_error_b S sc pt e X y_true w z yh zb yb s1
                 Hcol Hbin Hp Hbr Hl).
      rewrite (impl_index_error_b S sc pt e X' y_true w _ yh zb' yb s2
                 Hcol' Hinv Hp' Hbi); [reflexivity|].
      rewrite Hlen. exact Hl. }
  assert (Hl' : List.length yh = List.length zb') by (rewrite Hlen; exact Hl).
  destruct (y_given_invert pt zb yb yh) as [E1 E0]. fold zb' in E1, E0.
  destruct (y_given 1 pt zb yb yh) as [|a1 l1] eqn:G1;
    destruct (y_given 0 pt zb yb yh) as [|a0 l0] eqn:G0.
  - rewrite (impl_group1_empty_b S sc pt e X y_true w z yh zb yb s1
               Hcol Hbin Hp Hbr Hl G1).
    rewrite (impl_group1_empty_b S sc pt e X' y_true w _ yh zb' yb s2
               Hcol' Hinv Hp' Hbi Hl'); [reflexivity | congruence].
  - rewrite (impl_group1_empty_b S sc pt e X y_true w z yh zb yb s1
               Hcol Hbin Hp Hbr Hl G1).
    rewrite (impl_group0_empty_b S sc pt e X' y_true w _ yh zb' yb s2
               Hcol' Hinv Hp' Hbi Hl'); [reflexivity | | ]; congruence.
  - rewrite (impl_group0_empty_b S sc pt e X y_true w z yh zb yb s1
               Hcol Hbin Hp Hbr Hl); [| congruence | exact G0].
    rewrite (impl_group1_empty_b S sc pt e X' y_true w _ yh zb' yb s2
               Hcol' Hinv Hp' Hbi Hl'); [reflexivity | congruence].
  - rewrite (impl_score_b S sc pt e X y_true w z yh zb yb s1
               Hcol Hbin Hp Hbr Hl); [| congruence | congruence].
    rewrite (impl_score_b S sc pt e X' y_true w _ yh zb' yb s2
               Hcol' Hinv Hp' Hbi Hl'); [| congruence | congruence].
    cbn [snd]. unfold p_y1. rewrite E1, E0, G1, G0.
    rewrite (ratio_comm (Np.mean (Np.eq (a0 :: l0) pt))). reflexivity.
Qed.

End Symmetry.

Section ValidCall.

Variable S : Type.
Variables (sc : column_id) (pt : Z) (e : estimator S) (X : features).
Variables (y_true : list Z) (w : world S) (z yh : list Z) (s' : S).

(** A valid call: the column is extracted and binary, predict answers, and
    labels and predictions are aligned with the rows. *)
Hypothesis Hcol : get_sensitive_col sc X = Ok z.
Hypothesis Hbinary : forall v, In v z -> v = 0 \/ v = 1.
Hypothesis Hpred : predict e X (est w) = (s', Predicted yh).
Hypothesis Hy : List.length y_true = List.length z.
Hypothesis Hyh : List.length yh = List.length z.

(** Row [i] belongs to the conditioning subset of group [g]. *)
Local Abbreviation in_subset g i :=
  (nth_error z i = Some g /\ nth_error y_true i = Some pt).

Local Abbreviation p1 := (p_y1 1 pt z y_true yh).
Local Abbreviation p0 := (p_y1 0 pt z y_true yh).

Lemma subset_nonempty (g : Z) :
  (exists i, in_subset g i) -> y_given g pt z y_true yh <> [].
Proof.
  intros (i & Hz & Hyt) Hnil.
  destruct (y_given_nil g pt z y_true yh Hy Hyh) as [Hno _].
  exact (Hno Hnil i Hz Hyt).
Qed.

Lemma subset_empty (g : Z) :
  (forall i, ~ in_subset g i) -> y_given g pt z y_true yh = [].
Proof.
  intros Hno. apply (y_given_nil g pt z y_true yh Hy Hyh).
  intros i Hz Hyt. exact (Hno i (conj Hz Hyt)).
Qed.

Lemma rate_range (g : Z) :
  (exists i, in_subset g i) ->
  exists q, p_y1 g pt z y_true yh = Np.Fin q /\ (0 <= q)%Qc /\ (q <= 1)%Qc.
Proof.
  intros Hne. apply subset_nonempty in Hne. unfold p_y1.
  apply mean_range. unfold Np.eq.
  destruct (y_given g pt z y_true yh); [congruence | discriminate].
Qed.

Lemma rate_zero (g : Z) :
  (exists i, in_subset g i) ->
  (forall i, in_subset g i -> nth_error yh i <> Some pt) ->
  p_y1 g pt z y_true yh = Np.zero.
Proof.
  intros Hne Hneg. apply subset_nonempty in Hne. unfold p_y1.
  apply mean_zero.
  - unfold Np.eq. destruct (y_given g pt z y_true yh);
      [congruence | discriminate].
  - apply count_true_eq_zero. intros v Hv ->.
    apply (y_given_In g pt pt z y_true yh Hy Hyh) in Hv.
    destruct Hv as (i & Hz & Hyt & Hp). exact (Hneg i (conj Hz Hyt) Hp).
Qed.

Lemma impl_valid_score :
  (exists i, in_subset 1 i) -> (exists i, in_subset 0 i) ->
  impl sc pt e X y_true w =
  (scored w s' X p1 p0,
   Ok (if negb (Np.isnan (ratio p1 p0)) then Float64 (ratio p1 p0)
       else PyInt 1)).
Proof.
  intros H1 H0. apply is_binary_true in Hbinary.
  apply (impl_score S sc pt e X y_true w z yh s' Hcol Hbinary Hpred Hy Hyh);
    apply subset_nonempty; assumption.
Qed.

(** C2 (as amended).  With both conditioning subsets non-empty: when both
    rates are 0 the call returns the integer 1; when exactly one of them is
    0 the call returns the float 0.0.  The log shows what else happened: the
    call of predict and the warnings numpy issued for the divisions (two
    invalid values for 0/0 twice, one division by zero otherwise). *)
Theorem C2_zero_rate :
  (exists i, in_subset 1 i) -> (exists i, in_subset 0 i) ->
  (p1 = Np.zero -> p0 = Np.zero ->
   impl sc pt e X y_true w
   = ({| est := s';
         log := log w
                ++ [CallPredict X;
                    Warn (RuntimeWarning_numpy Np.InvalidValue);
                    Warn (RuntimeWarning_numpy Np.InvalidValue)] |},
      Ok (PyInt 1)))
  /\ (p1 = Np.zero -> p0 <> Np.zero ->
      impl sc pt e X y_true w
      = ({| est := s';
            log := log w
                   ++ [CallPredict X;
                       Warn (RuntimeWarning_numpy Np.DivideByZero)] |},
         Ok (Float64 Np.zero)))
  /\ (p1 <> Np.zero -> p0 = Np.zero ->
      impl sc pt e X y_true w
      = ({| est := s';
            log := log w
                   ++ [CallPredict X;
                       Warn (RuntimeWarning_numpy Np.DivideByZero)] |},
         Ok (Float64 Np.zero))).
Proof.
  intros H1 H0. rewrite (impl_valid_score H1 H0).
  destruct (rate_range 1 H1) as (a & Ea & Ha & _).
  destruct (rate_range 0 H0) as (b & Eb & Hb & _).
  split; [|split].
  - intros -> ->. rewrite scored_zero_zero. reflexivity.
  - intros E1 Hne. rewrite E1, Eb.
    assert (Hpos : (0 < b)%Qc).
    { apply Qc_pos_of_nonneg; [exact Hb|]. intros ->. apply Hne.
      rewrite Eb. reflexivity. }
    rewrite (ratio_zero_l b Hpos), (scored_zero_l S w s' X b Hpos).
    reflexivity.
  - intros Hne E0. rewrite E0, Ea.
    assert (Hpos : (0 < a)%Qc).
    { apply Qc_pos_of_nonneg; [exact Ha|]. intros ->. apply Hne.
      rewrite Ea. reflexivity. }
    rewrite ratio_comm, (ratio_zero_l a Hpos), (scored_zero_r S w s' X a Hpos).
    reflexivity.
Qed.

(** C4.  On a valid call: when no row of group 1 has the positive label the
    call warns once about group 1 and returns 0; when group 1 has such a row
    and group 0 has none it warns once about group 0 and returns 0; when both
    subsets are empty the only warning is the one about group 1.  In each
    case predict has been called once and nothing else is logged. *)
Theorem C4_empty_group :
  ((forall i, ~ in_subset 1 i) ->
   impl sc pt e X y_true w =
   ({| est := s';
       log := (log w ++ [CallPredict X])
              ++ [Warn (RuntimeWarning_no_samples pt sc 1)] |},
    Ok (PyInt 0)))
  /\ ((exists i, in_subset 1 i) -> (forall i, ~ in_subset 0 i) ->
      impl sc pt e X y_true w =
      ({| est := s';
          log := (log w ++ [CallPredict X])
                 ++ [Warn (RuntimeWarning_no_samples pt sc 0)] |},
       Ok (PyInt 0)))
  /\ ((forall i, ~ in_subset 1 i) -> (forall i, ~ in_subset 0 i) ->
      log (fst (impl sc pt e X y_true w))
      = log w ++ [CallPredict X; Warn (RuntimeWarning_no_samples pt sc 1)]).
Proof.
  apply is_binary_true in Hbinary.
  assert (Hfirst : (forall i, ~ in_subset 1 i) ->
                   impl sc pt e X y_true w =
                   ({| est := s';
                       log := (log w ++ [CallPredict X])
                              ++ [Warn (RuntimeWarning_no_samples pt sc 1)] |},
                    Ok (PyInt 0))).
  { intros H1.
    apply (impl_group1_empty S sc pt e X y_true w z yh s'
             Hcol Hbinary Hpred Hy Hyh).
    apply subset_empty. exact H1. }
  split; [exact Hfirst | split].
  - intros H1 H0.
    apply (impl_group0_empty S sc pt e X y_true w z yh s'
             Hcol Hbinary Hpred Hy Hyh).
    + apply subset_nonempty. exact H1.
    + apply subset_empty. exact H0.
  - intros H1 _. rewrite (Hfirst H1). cbn [fst log].
    rewrite <- app_assoc. reflexivity.
Qed.

(** C5 (as amended).  On a valid call where both conditioning subsets are
    non-empty and no prediction on either of them is the positive target,
    the call returns 1 and the scoring function issues no warning of its
    own; the only warnings are the two RuntimeWarnings (invalid value) that
    numpy issues for the two 0/0 divisions of line 64. *)
Theorem C5_zero_rate_tie :
  (exists i, in_subset 1 i) -> (exists i, in_subset 0 i) ->
  (forall g i, g = 0 \/ g = 1 -> in_subset g i -> nth_error yh i <> Some pt) ->
  impl sc pt e X y_true w
  = ({| est := s';
        log := log w
               ++ [CallPredict X;
                   Warn (RuntimeWarning_numpy Np.InvalidValue);
                   Warn (RuntimeWarning_numpy Np.InvalidValue)] |},
     Ok (PyInt 1))
  /\ (exists issued,
         log (fst (impl sc pt e X y_true w))
         = log w ++ CallPredict X :: issued
         /\ forall ev, In ev issued ->
                       ev = Warn (RuntimeWarning_numpy Np.InvalidValue)).
Proof.
  intros H1 H0 Hneg.
  assert (E1 : p1 = Np.zero).
  { apply rate_zero; [exact H1|]. intros i. apply Hneg. now right. }
  assert (E0 : p0 = Np.zero).
  { apply rate_zero; [exact H0|]. intros i. apply Hneg. now left. }
  rewrite (impl_valid_score H1 H0), E1, E0, scored_zero_zero.
  split; [reflexivity|]. eexists. split; [reflexivity|].
  intros ev [<-|[<-|[]]]; reflexivity.
Qed.

(** C7.  On a valid call with both conditioning subsets non-empty and the
    two rates not both 0, the call returns a float in [0, 1]; when both
    rates are strictly positive the float is in (0, 1] and nothing but the
    call of predict is logged. *)
Theorem C7_range :
  (exists i, in_subset 1 i) -> (exists i, in_subset 0 i) ->
  ~ (p1 = Np.zero /\ p0 = Np.zero) ->
  exists q,
    impl sc pt e X y_true w = (scored w s' X p1 p0, Ok (Float64 (Np.Fin q)))
    /\ (0 <= q)%Qc /\ (q <= 1)%Qc
    /\ (forall a b, p1 = Np.Fin a -> p0 = Np.Fin b ->
                    (0 < a)%Qc -> (0 < b)%Qc ->
                    (0 < q)%Qc /\ scored w s' X p1 p0 = predicted w s' X).
Proof.
  intros H1 H0 Hnd. rewrite (impl_valid_score H1 H0).
  destruct (rate_range 1 H1) as (a & Ea & Ha & _).
  destruct (rate_range 0 H0) as (b & Eb & Hb & _).
  rewrite Ea, Eb in *.
  destruct (Qc_eq_dec a (Q2Qc 0)) as [Za|Za];
    destruct (Qc_eq_dec b (Q2Qc 0)) as [Zb|Zb].
  - subst a b. exfalso. apply Hnd. split; reflexivity.
  - subst a. pose proof (Qc_pos_of_nonneg b Hb Zb) as Hpos.
    change (Np.Fin (Q2Qc 0)) with Np.zero. rewrite (ratio_zero_l b Hpos).
    exists (Q2Qc 0). split; [reflexivity|].
    split; [apply Qcle_refl|]. split; [discriminate|].
    intros a' b' Ea' _ Ha' _. exfalso.
    assert (a' = Q2Qc 0) by (unfold Np.zero in Ea'; congruence). subst a'.
    exact (Qclt_not_eq _ _ Ha' eq_refl).
  - subst b. pose proof (Qc_pos_of_nonneg a Ha Za) as Hpos.
    change (Np.Fin (Q2Qc 0)) with Np.zero.
    rewrite ratio_comm, (ratio_zero_l a Hpos).
    exists (Q2Qc 0). split; [reflexivity|].
    split; [apply Qcle_refl|]. split; [discriminate|].
    intros a' b' _ Eb' _ Hb'. exfalso.
    assert (b' = Q2Qc 0) by (unfold Np.zero in Eb'; congruence). subst b'.
    exact (Qclt_not_eq _ _ Hb' eq_refl).
  - pose proof (Qc_pos_of_nonneg a Ha Za) as Pa.
    pose proof (Qc_pos_of_nonneg b Hb Zb) as Pb.
    destruct (ratio_pos a b Pa Pb) as (q & Eq & Hq0 & Hq1).
    rewrite Eq. exists q. split; [reflexivity|].
    split; [apply Qclt_le_weak; exact Hq0|]. split; [exact Hq1|].
    intros a' b' _ _ _ _. split; [exact Hq0|].
    apply scored_positive; assumption.
Qed.

(** C8.  On a valid call with both conditioning subsets non-empty, equal
    rates give a returned value equal to 1. *)
Theorem C8_equal_rates :
  (exists i, in_subset 1 i) -> (exists i, in_subset 0 i) ->
  p1 = p0 ->
  exists v,
    impl sc pt e X y_true w = (scored w s' X p1 p0, Ok v)
    /\ to_float v = Np.one.
Proof.
  intros H1 H0 Heq. rewrite (impl_valid_score H1 H0).
  destruct (rate_range 1 H1) as (a & Ea & _).
  rewrite <- Heq, Ea.
  destruct (Qc_eq_dec a (Q2Qc 0)) as [Za|Za].
  - subst a. exists (PyInt 1). split; reflexivity.
  - rewrite (ratio_same a Za). exists (Float64 Np.one). split; reflexivity.
Qed.

End ValidCall.

(** ** The properties on the sample inputs *)

Section Instances.

Import Sample.

Local Abbreviation clf := counting_estimator.

(** Case analysis on a row number of a sample of at most six rows. *)
Ltac rows i :=
  do 7 (try (destruct i as [|i]; cbn in *; try discriminate; auto)).

Lemma binary_z6 : forall v, In v z6 -> v = 0 \/ v = 1.
Proof. intros v Hv. cbn in Hv. intuition. Defined.

Lemma binary_z2 : forall v, In v z2 -> v = 0 \/ v = 1.
Proof. intros v Hv. cbn in Hv. intuition. Defined.

Lemma C1_witness :
  impl (ColIndex 1) 1 (clf y_hat6) X6 y6 fresh
  = (predicted fresh 1%nat X6, Ok (Float64 Np.one)).
Proof.
  apply (C1_end_to_end nat (ColIndex 1) (clf y_hat6) X6 fresh 1%nat);
    reflexivity.
Defined.

(** At z = [0, 1], y_true = [1, 1], predictions [1, 0]: both subsets are
    non-empty and the rate of group 1 is 0, yet the call returns 0.0. *)
Lemma C2_counterexample :
  (exists i, nth_error z2 i = Some 1 /\ nth_error y2 i = Some 1)
  /\ (exists i, nth_error z2 i = Some 0 /\ nth_error y2 i = Some 1)
  /\ p_y1 1 1 z2 y2 [1; 0] = Np.zero
  /\ snd (impl (ColName "sex") 1 (clf [1; 0]) X2 y2 fresh)
     = Ok (Float64 Np.zero)
  /\ to_float (Float64 Np.zero) <> Np.one.
Proof.
  split; [exists 1%nat; split; reflexivity|].
  split; [exists 0%nat; split; reflexivity|].
  split; [reflexivity|]. split; [|exact zero_neq_one].
  cbv beta iota zeta delta [impl bind lift call_predict broadcast_operands
                              check_index np_divide raise ret warn snd].
  float_eq.
Qed.

Lemma C2_witness :
  impl (ColName "sex") 1 (clf [0; 0]) X2 y2 fresh
  = ({| est := 1%nat;
        log := [] ++ [CallPredict X2;
                      Warn (RuntimeWarning_numpy Np.InvalidValue);
                      Warn (RuntimeWarning_numpy Np.InvalidValue)] |},
     Ok (PyInt 1))
  /\ impl (ColName "sex") 1 (clf [1; 0]) X2 y2 fresh
     = ({| est := 1%nat;
           log := [] ++ [CallPredict X2;
                         Warn (RuntimeWarning_numpy Np.DivideByZero)] |},
        Ok (Float64 Np.zero))
  /\ impl (ColName "sex") 1 (clf [0; 1]) X2 y2 fresh
     = ({| est := 1%nat;
           log := [] ++ [CallPredict X2;
                         Warn (RuntimeWarning_numpy Np.DivideByZero)] |},
        Ok (Float64 Np.zero)).
Proof.
  assert (H1 : exists i, nth_error z2 i = Some 1 /\ nth_error y2 i = Some 1)
    by (exists 1%nat; split; reflexivity).
  assert (H0 : exists i, nth_error z2 i = Some 0 /\ nth_error y2 i = Some 1)
    by (exists 0%nat; split; reflexivity).
  split; [|split].
  - destruct (C2_zero_rate nat (ColName "sex") 1 (clf [0; 0]) X2 y2 fresh z2
                [0; 0] 1%nat eq_refl binary_z2 eq_refl eq_refl eq_refl H1 H0)
      as (Hboth & _ & _).
    apply Hboth; reflexivity.
  - destruct (C2_zero_rate nat (ColName "sex") 1 (clf [1; 0]) X2 y2 fresh z2
                [1; 0] 1%nat eq_refl binary_z2 eq_refl eq_refl eq_refl H1 H0)
      as (_ & Hgroup1 & _).
    apply Hgroup1; [reflexivity|].
    intros H. apply zero_neq_one. symmetry. exact H.
  - destruct (C2_zero_rate nat (ColName "sex") 1 (clf [0; 1]) X2 y2 fresh z2
                [0; 1] 1%nat eq_refl binary_z2 eq_refl eq_refl eq_refl H1 H0)
      as (_ & _ & Hgroup0).
    apply Hgroup0; [|reflexivity].
    intros H. apply zero_neq_one. symmetry. exact H.
Defined.

(** At the column [0, 2, 1] the error reports 0, 1 and 2, while the only
    value that is neither 0 nor 1 is 2. *)
Lemma C3_counterexample :
  snd (impl (ColIndex 0) 1 (clf [1; 1; 1]) X3 y3 fresh)
  = Raise (ValueError_not_binary [0; 1; 2])
  /\ filter (fun v => negb ((v =? 0) || (v =? 1))) (Np.unique z3) = [2]
  /\ [0; 1; 2] <> [2].
Proof. split; [reflexivity|]. split; [reflexivity | discriminate]. Qed.

Lemma C3_witness :
  snd (impl (ColIndex 0) 1 (clf [1; 1; 1]) X3 y3 fresh)
  = Raise (ValueError_not_binary [0; 1; 2])
  /\ (forall found,
         snd (impl (ColIndex 1) 1 (clf y_hat6) X6 y6 fresh)
         <> Raise (ValueError_not_binary found)).
Proof.
  split.
  - apply (C3_validation nat (ColIndex 0) 1 (clf [1; 1; 1]) X3 y3 fresh z3
             eq_refl).
    exists 2. split; [cbn; auto | split; discriminate].
  - apply (C3_validation nat (ColIndex 1) 1 (clf y_hat6) X6 y6 fresh z6
             eq_refl).
    exact binary_z6.
Defined.

Lemma C4_witness :
  impl (ColIndex 1) 1 (clf y_hat6) X6 y6_no_group1 fresh
  = ({| est := 1%nat;
        log := ([] ++ [CallPredict X6])
               ++ [Warn (RuntimeWarning_no_samples 1 (ColIndex 1) 1)] |},
     Ok (PyInt 0))
  /\ impl (ColIndex 1) 1 (clf y_hat6) X6 y6_no_group0 fresh
     = ({| est := 1%nat;
           log := ([] ++ [CallPredict X6])
                  ++ [Warn (RuntimeWarning_no_samples 1 (ColIndex 1) 0)] |},
        Ok (PyInt 0)).
Proof.
  split.
  - apply (C4_empty_group nat (ColIndex 1) 1 (clf y_hat6) X6 y6_no_group1
             fresh z6 y_hat6 1%nat eq_refl binary_z6 eq_refl eq_refl eq_refl).
    intros i [Hz Hy]. rows i.
  - apply (C4_empty_group nat (ColIndex 1) 1 (clf y_hat6) X6 y6_no_group0
             fresh z6 y_hat6 1%nat eq_refl binary_z6 eq_refl eq_refl eq_refl).
    + exists 3%nat. split; reflexivity.
    + intros i [Hz Hy]. rows i.
Defined.

(** At z = [0, 1], y_true = [1, 1], predictions [0, 0]: both subsets are
    non-empty, no prediction is the positive target, the call returns 1, and
    a warning is logged: numpy's invalid value warning for 0/0. *)
Lemma C5_counterexample :
  (exists i, nth_error z2 i = Some 1 /\ nth_error y2 i = Some 1)
  /\ (exists i, nth_error z2 i = Some 0 /\ nth_error y2 i = Some 1)
  /\ (forall i, nth_error [0; 0] i <> Some 1)
  /\ snd (impl (ColName "sex") 1 (clf [0; 0]) X2 y2 fresh) = Ok (PyInt 1)
  /\ In (Warn (RuntimeWarning_numpy Np.InvalidValue))
        (log (fst (impl (ColName "sex") 1 (clf [0; 0]) X2 y2 fresh)))
  /\ log (fst (impl (ColName "sex") 1 (clf [0; 0]) X2 y2 fresh))
     <> [CallPredict X2].
Proof.
  split; [exists 1%nat; split; reflexivity|].
  split; [exists 0%nat; split; reflexivity|].
  split; [intros i; rows i|].
  split; [reflexivity|]. split; [cbn; auto | discriminate].
Qed.

Lemma C5_witness :
  impl (ColName "sex") 1 (clf [0; 0]) X2 y2 fresh
  = ({| est := 1%nat;
        log := [] ++ [CallPredict X2;
                      Warn (RuntimeWarning_numpy Np.InvalidValue);
                      Warn (RuntimeWarning_numpy Np.InvalidValue)] |},
     Ok (PyInt 1))
  /\ (exists issued,
         log (fst (impl (ColName "sex") 1 (clf [0; 0]) X2 y2 fresh))
         = [] ++ CallPredict X2 :: issued
         /\ forall ev, In ev issued ->
                       ev = Warn (RuntimeWarning_numpy Np.InvalidValue)).
Proof.
  apply (C5_zero_rate_tie nat (ColName "sex") 1 (clf [0; 0]) X2 y2 fresh z2
           [0; 0] 1%nat eq_refl binary_z2 eq_refl eq_refl eq_refl).
  - exists 1%nat. split; reflexivity.
  - exists 0%nat. split; reflexivity.
  - intros g i _ _ Hp. rows i.
Defined.

Lemma C6_witness :
  returned (snd (impl (ColIndex 1) 1 (clf y_hat6_uneven) X6 y6 fresh))
  = returned (snd (impl (ColIndex 1) 1 (clf y_hat6_uneven) X6_swapped y6
                     fresh)).
Proof.
  apply (C6_symmetry nat (ColIndex 1) 1 (clf y_hat6_uneven) X6 X6_swapped y6
           fresh z6); reflexivity.
Defined.

Lemma C7_witness :
  exists q,
    impl (ColIndex 1) 1 (clf y_hat6_uneven) X6 y6 fresh
    = (scored fresh 1%nat X6 (p_y1 1 1 z6 y6 y_hat6_uneven)
         (p_y1 0 1 z6 y6 y_hat6_uneven),
       Ok (Float64 (Np.Fin q)))
    /\ (0 <= q)%Qc /\ (q <= 1)%Qc
    /\ (forall a b,
           p_y1 1 1 z6 y6 y_hat6_uneven = Np.Fin a ->
           p_y1 0 1 z6 y6 y_hat6_uneven = Np.Fin b ->
           (0 < a)%Qc -> (0 < b)%Qc ->
           (0 < q)%Qc
           /\ scored fresh 1%nat X6 (p_y1 1 1 z6 y6 y_hat6_uneven)
                (p_y1 0 1 z6 y6 y_hat6_uneven)
              = predicted fresh 1%nat X6).
Proof.
  apply (C7_range nat (ColIndex 1) 1 (clf y_hat6_uneven) X6 y6 fresh z6
           y_hat6_uneven 1%nat eq_refl binary_z6 eq_refl eq_refl eq_refl).
  - exists 3%nat. split; reflexivity.
  - exists 0%nat. split; reflexivity.
  - intros [_ H]. apply (Fin_Q2Qc_eq (2 # 2) 0) in H. discriminate H.
Defined.

Lemma C8_witness :
  exists v,
    impl (ColIndex 1) 1 (clf y_hat6) X6 y6 fresh
    = (scored fresh 1%nat X6 (p_y1 1 1 z6 y6 y_hat6) (p_y1 0 1 z6 y6 y_hat6),
       Ok v)
    /\ to_float v = Np.one.
Proof.
  apply (C8_equal_rates nat (ColIndex 1) 1 (clf y_hat6) X6 y6 fresh z6
           y_hat6 1%nat eq_refl binary_z6 eq_refl eq_refl eq_refl).
  - exists 3%nat. split; reflexivity.
  - exists 0%nat. split; reflexivity.
  - reflexivity.
Defined.

Lemma C9_witness :
  equal_opportunity_score (ColName "missing") 1 fresh
  = (fresh, Ok (impl (ColName "missing") 1))
  /\ snd (impl (ColIndex 1) 1 (clf y_hat6_uneven) X6 y6
            (fst (impl (ColIndex 1) 1 (clf y_hat6_uneven) X6 y6 fresh)))
     = snd (impl (ColIndex 1) 1 (clf y_hat6_uneven) X6 y6 fresh).
Proof.
  split.
  - apply (C9_factory_stateless nat (ColName "missing") 1 (clf [])).
  - apply (C9_factory_stateless nat (ColIndex 1) 1 (clf y_hat6_uneven)).
    intros s1 s2. reflexivity.
Defined.

Lemma C10_witness :
  impl (ColIndex 0) 1 (clf [1; 1; 1]) X3 y3 fresh
  = (fresh, Raise (ValueError_not_binary [0; 1; 2]))
  /\ est (fst (impl (ColIndex 0) 1 (clf [1; 1; 1]) X3 y3 fresh)) = est fresh
  /\ log (fst (impl (ColIndex 0) 1 (clf [1; 1; 1]) X3 y3 fresh)) = log fresh.
Proof.
  apply (C10_no_predict_on_invalid nat (ColIndex 0) 1 (clf [1; 1; 1]) X3 y3
           fresh z3 eq_refl).
  exists 2. split; [cbn; auto | split; discriminate].
Defined.

End Instances.

(** ** Further properties: every exit of the scoring function *)

Section Exits.

Variable S : Type.
Variables (sc : column_id) (pt : Z) (e : estimator S) (X : features).
Variables (y_true : list Z) (w : world S).

(** Every call ends by one of the exits. *)
Lemma impl_run_complete :
  impl_run sc pt e X y_true w (impl sc pt e X y_true w).
Proof.
  destruct (get_sensitive_col sc X) as [z|err] eqn:Hcol.
  2:{ rewrite (impl_column_error S sc pt e X y_true w err Hcol).
      now apply run_lookup_error. }
  destruct (is_binary z) eqn:Hbin.
  2:{ rewrite (impl_not_binary S sc pt e X y_true w z Hcol Hbin).
      now apply run_not_binary. }
  destruct (predict e X (est w)) as [s' [yh|code]] eqn:Hp.
  2:{ rewrite (impl_predict_raises S sc pt e X y_true w z s' code
                 Hcol Hbin Hp).
      now apply run_predict_raised with z. }
  destruct (Np.broadcast z y_true) as [[zb yb]|] eqn:Hbr.
  2:{ rewrite (impl_broadcast_error S sc pt e X y_true w z yh s'
                 Hcol Hbin Hp Hbr).
      now apply run_broadcast_error with z yh. }
  destruct (Nat.eq_dec (List.length yh) (List.length zb)) as [Hl|Hl].
  2:{ rewrite (impl_index_error_b S sc pt e X y_true w z yh zb yb s'
                 Hcol Hbin Hp Hbr Hl).
      now apply run_index_error with z yh zb yb. }
  destruct (y_given 1 pt zb yb yh) as [|a1 l1] eqn:G1.
  { rewrite (impl_group1_empty_b S sc pt e X y_true w z yh zb yb s'
               Hcol Hbin Hp Hbr Hl G1).
    now apply run_group1_empty with z yh zb yb. }
  assert (N1 : y_given 1 pt zb yb yh <> []) by (rewrite G1; discriminate).
  destruct (y_given 0 pt zb yb yh) as [|a0 l0] eqn:G0.
  { rewrite (impl_group0_empty_b S sc pt e X y_true w z yh zb yb s'
               Hcol Hbin Hp Hbr Hl N1 G0).
    now apply run_group0_empty with z yh zb yb. }
  assert (N0 : y_given 0 pt zb yb yh <> []) by (rewrite G0; discriminate).
  rewrite (impl_score_b S sc pt e X y_true w z yh zb yb s'
             Hcol Hbin Hp Hbr Hl N1 N0).
  now apply run_score with z.
Qed.

End Exits.

Lemma PyInt_range (n : Z) :
  n = 0 \/ n = 1 ->
  exists q, to_float (PyInt n) = Np.Fin q /\ (0 <= q)%Qc /\ (q <= 1)%Qc.
Proof.
  intros [-> | ->]; eexists; (split; [reflexivity|]);
    split; unfold Qcle; cbn; discriminate.
Qed.

Lemma nonempty_rate_range (pt : Z) (y_true : list Z) (g : Z)
  (z yh : list Z) :
  y_given g pt z y_true yh <> [] ->
  exists q, p_y1 g pt z y_true yh = Np.Fin q /\ (0 <= q)%Qc /\ (q <= 1)%Qc.
Proof.
  intros Hne. unfold p_y1. apply mean_range. unfold Np.eq.
  destruct (y_given g pt z y_true yh); [congruence | discriminate].
Qed.

(** The value of the last exit, by the two rates. *)
Lemma score_value (a b : Qc) :
  (0 <= a)%Qc -> (0 <= b)%Qc ->
  let score := ratio (Np.Fin a) (Np.Fin b) in
  let v := if negb (Np.isnan score) then Float64 score else PyInt 1 in
  (a = Q2Qc 0 /\ b = Q2Qc 0 /\ v = PyInt 1)
  \/ ((a = Q2Qc 0 <-> b <> Q2Qc 0) /\ v = Float64 Np.zero)
  \/ ((0 < a)%Qc /\ (0 < b)%Qc
      /\ exists q, v = Float64 (Np.Fin q) /\ (0 < q)%Qc /\ (q <= 1)%Qc
                   /\ ratio (Np.Fin a) (Np.Fin b) = Np.Fin q).
Proof.
  intros Ha Hb. cbv zeta.
  destruct (Qc_eq_dec a (Q2Qc 0)) as [Za|Za];
    destruct (Qc_eq_dec b (Q2Qc 0)) as [Zb|Zb].
  - left. subst. repeat split.
  - right; left. subst a. pose proof (Qc_pos_of_nonneg b Hb Zb) as Hpos.
    change (Np.Fin (Q2Qc 0)) with Np.zero. rewrite (ratio_zero_l b Hpos).
    split; [tauto | reflexivity].
  - right; left. subst b. pose proof (Qc_pos_of_nonneg a Ha Za) as Hpos.
    change (Np.Fin (Q2Qc 0)) with Np.zero.
    rewrite ratio_comm, (ratio_zero_l a Hpos).
    split; [tauto | reflexivity].
  - right; right.
    pose proof (Qc_pos_of_nonneg a Ha Za) as Pa.
    pose proof (Qc_pos_of_nonneg b Hb Zb) as Pb.
    destruct (ratio_pos a b Pa Pb) as (q & Eq & Hq0 & Hq1).
    split; [exact Pa|]. split; [exact Pb|]. exists q. rewrite Eq.
    repeat split; assumption.
Qed.

Section EveryCall.

Variable S : Type.
Variables (sc : column_id) (pt : Z) (e : estimator S) (X : features).
Variables (y_true : list Z) (w : world S).

Ltac by_exit r Hr :=
  pose proof (impl_run_complete S sc pt e X y_true w) as Hr;
  remember (impl sc pt e X y_true w) as r eqn:Er;
  destruct Hr as [err Hc
                 | z0 Hc Hb
                 | z0 s0 code0 Hc Hb Hp
                 | z0 yh0 s0 Hc Hb Hp Hbr
                 | z0 yh0 zb yb s0 Hc Hb Hp Hbr Hl
                 | z0 yh0 zb yb s0 Hc Hb Hp Hbr Hyh G1
                 | z0 yh0 zb yb s0 Hc Hb Hp Hbr Hyh N1 G0
                 | z0 yh0 zb yb s0 Hc Hb Hp Hbr Hyh N1 N0].

(** X1.  What a call does to the world, whatever its arguments.  Either it
    raises at the lookup or the validation with the world untouched; or it
    has called predict exactly once, on the X it was given, and then
    - raised (the estimator's exception or a shape error) with nothing else
      logged, or
    - issued exactly one warning of its own, about group 0 or group 1, and
      returned the integer 0, or
    - returned a value without a warning of its own, the only other entries
      of the log being the warnings numpy issued for the two divisions:
      none, one division by zero, or two invalid values. *)
Theorem call_effects :
  let r := impl sc pt e X y_true w in
  let s' := fst (predict e X (est w)) in
  (fst r = w /\ exists err, snd r = Raise err)
  \/ (fst r = predicted w s' X /\ exists err, snd r = Raise err)
  \/ (exists g, (g = 0 \/ g = 1)
                /\ fst r = {| est := s';
                              log := log w
                                     ++ [CallPredict X;
                                         Warn (RuntimeWarning_no_samples
                                                 pt sc g)] |}
                /\ snd r = Ok (PyInt 0))
  \/ (exists errs v,
         fst r = {| est := s';
                    log := log w
                           ++ CallPredict X
                              :: map (fun err => Warn (RuntimeWarning_numpy err))
                                   errs |}
         /\ snd r = Ok v
         /\ (errs = [] \/ errs = [Np.DivideByZero]
             \/ errs = [Np.InvalidValue; Np.InvalidValue])).
Proof.
  cbv zeta. by_exit r Hr; cbn [fst snd].
  - left. split; [reflexivity | now exists err].
  - left. split; [reflexivity | eexists; reflexivity].
  - right; left. rewrite Hp. split; [reflexivity | eexists; reflexivity].
  - right; left. rewrite Hp. split; [reflexivity | eexists; reflexivity].
  - right; left. rewrite Hp. split; [reflexivity | eexists; reflexivity].
  - right; right; left. exists 1. rewrite Hp, <- app_assoc. cbn [fst].
    split; [now right|]. split; reflexivity.
  - right; right; left. exists 0. rewrite Hp, <- app_assoc. cbn [fst].
    split; [now left|]. split; reflexivity.
  - right; right; right. rewrite Hp. cbn [fst].
    destruct (nonempty_rate_range pt yb 1 zb yh0 N1) as (a & Ea & Ha & _).
    destruct (nonempty_rate_range pt yb 0 zb yh0 N0) as (b & Eb & Hb' & _).
    rewrite Ea, Eb.
    exists (Np.div_errors (Np.Fin a) (Np.Fin b)
            ++ Np.div_errors (Np.Fin b) (Np.Fin a)).
    eexists. split; [|split; [reflexivity|]].
    + unfold scored, division_warnings. rewrite <- app_assoc. reflexivity.
    + unfold Np.div_errors.
      destruct (Np.Qc_is_zero a), (Np.Qc_is_zero b); cbn [app]; auto.
Qed.

(** X2.  Whatever the arguments, a call that returns hands back a number of
    [0, 1]: never nan, never an infinity, never a negative number. *)
Theorem returned_in_unit_interval (v : value) :
  returned (snd (impl sc pt e X y_true w)) = Some v ->
  exists q, to_float v = Np.Fin q /\ (0 <= q)%Qc /\ (q <= 1)%Qc.
Proof.
  by_exit r Hr; cbn [snd returned]; intros Hv; try discriminate Hv;
    injection Hv as <-.
  - apply PyInt_range. now left.
  - apply PyInt_range. now left.
  - destruct (nonempty_rate_range pt yb 1 zb yh0 N1) as (a & Ea & Ha & _).
    destruct (nonempty_rate_range pt yb 0 zb yh0 N0) as (b & Eb & Hb' & _).
    rewrite Ea, Eb.
    destruct (score_value a b Ha Hb')
      as [(_ & _ & ->) | [(_ & ->) | (_ & _ & q & -> & Hq0 & Hq1 & _)]].
    + apply PyInt_range. now right.
    + exists (Q2Qc 0). split; [reflexivity|].
      split; unfold Qcle; cbn; discriminate.
    + exists q. split; [reflexivity|].
      split; [now apply Qclt_le_weak | exact Hq1].
Qed.

(** X3.  The call raises the estimator's exception exactly when the column
    is binary and predict raised it: the exception is neither masked nor
    produced by the scoring function itself. *)
Theorem estimator_exception (z : list Z) (code : Z) :
  get_sensitive_col sc X = Ok z ->
  (snd (impl sc pt e X y_true w) = Raise (EstimatorError code)
   <-> (forall v, In v z -> v = 0 \/ v = 1)
       /\ snd (predict e X (est w)) = PredictRaised code).
Proof.
  intros Hcol. rewrite <- is_binary_true. split.
  - by_exit r Hr; cbn [snd]; intros Hv; try discriminate Hv.
    + congruence.
    + rewrite Hcol in Hc. injection Hc as <-. rewrite Hp. cbn [snd].
      split; [exact Hb | congruence].
  - intros [Hbin Hp].
    destruct (predict e X (est w)) as [s' r] eqn:Hpred. cbn [snd] in Hp.
    subst r.
    rewrite (impl_predict_raises S sc pt e X y_true w z s' code
               Hcol Hbin Hpred).
    reflexivity.
Qed.

End EveryCall.

Section RatioShape.

Local Open Scope Qc_scope.





End RatioShape.

Section ValidCallMore.

Variable S : Type.
Variables (sc : column_id) (pt : Z) (e : estimator S) (X : features).
Variables (y_true : list Z) (w : world S) (z yh : list Z) (s' : S).

Hypothesis Hcol : get_sensitive_col sc X = Ok z.
Hypothesis Hbinary : forall v, In v z -> v = 0 \/ v = 1.
Hypothesis Hpred : predict e X (est w) = (s', Predicted yh).
Hypothesis Hy : List.length y_true = List.length z.
Hypothesis Hyh : List.length yh = List.length z.

Local Abbreviation in_subset g i :=
  (nth_error z i = Some g /\ nth_error y_true i = Some pt).

Local Abbreviation p1 := (p_y1 1 pt z y_true yh).
Local Abbreviation p0 := (p_y1 0 pt z y_true yh).

Lemma Fin_inj (x y : Qc) : Np.Fin x = Np.Fin y -> x = y.
Proof. intros E. injection E. trivial. Qed.

(** The last exit, with the two rates named. *)
Lemma valid_score_by_rates :
  (exists i, in_subset 1 i) -> (exists i, in_subset 0 i) ->
  exists a b,
    p1 = Np.Fin a /\ p0 = Np.Fin b /\ (0 <= a)%Qc /\ (0 <= b)%Qc
    /\ impl sc pt e X y_true w =
       (scored w s' X p1 p0,
        Ok (if negb (Np.isnan (ratio (Np.Fin a) (Np.Fin b)))
            then Float64 (ratio (Np.Fin a) (Np.Fin b)) else PyInt 1)).
Proof.
  intros H1 H0.
  destruct (rate_range pt y_true z yh Hy Hyh 1 H1) as (a & Ea & Ha & _).
  destruct (rate_range pt y_true z yh Hy Hyh 0 H0) as (b & Eb & Hb & _).
  exists a, b. repeat (split; [assumption|]).
  rewrite (impl_valid_score S sc pt e X y_true w z yh s'
             Hcol Hbinary Hpred Hy Hyh H1 H0), Ea, Eb.
  reflexivity.
Qed.


(** X6.  On a valid call with both conditioning subsets non-empty, the
    float 0.0 is returned exactly when one rate is 0 and the other is not. *)
Theorem zero_iff_one_zero_rate :
  (exists i, in_subset 1 i) -> (exists i, in_subset 0 i) ->
  (snd (impl sc pt e X y_true w) = Ok (Float64 Np.zero)
   <-> (p1 = Np.zero /\ p0 <> Np.zero) \/ (p1 <> Np.zero /\ p0 = Np.zero)).
Proof.
  intros H1 H0.
  destruct (valid_score_by_rates H1 H0) as (a & b & Ea & Eb & Ha & Hb & ->).
  cbn [snd]. rewrite Ea, Eb.
  assert (Hz : forall x : Qc, Np.Fin x = Np.zero <-> x = Q2Qc 0).
  { intros x. split; [apply Fin_inj | intros ->; reflexivity]. }
  rewrite !Hz.
  destruct (score_value a b Ha Hb)
    as [(-> & -> & ->) | [(Hx & ->) | (Pa & Pb & q & -> & Hq0 & Hq1 & Er)]].
  - split; [discriminate | tauto].
  - split; [intros _ | reflexivity].
    destruct (Qc_eq_dec a (Q2Qc 0)) as [Za|Za]; [left | right]; split;
      try assumption.
    + apply Hx. exact Za.
    + destruct (Qc_eq_dec b (Q2Qc 0)) as [Zb|Zb]; [exact Zb|].
      exfalso. apply Za. apply Hx. exact Zb.
  - split.
    + intros H. exfalso.
      assert (Eq : q = Q2Qc 0).
      { apply Hz.
        apply (f_equal (fun r => match r with
                                 | Ok (Float64 x) => x
                                 | _ => Np.NaN
                                 end)) in H.
        exact H. }
      subst q. exact (Qclt_not_eq _ _ Hq0 eq_refl).
    + intros [[Za _] | [_ Zb]]; exfalso.
      * subst a. exact (Qclt_not_eq _ _ Pa eq_refl).
      * subst b. exact (Qclt_not_eq _ _ Pb eq_refl).
Qed.

(** X7.  On a valid call, the integer 0 is returned exactly when one of the
    two conditioning subsets is empty, and exactly then the scoring function
    issues its own warning; when both subsets are non-empty the only
    warnings are those numpy issues for the two divisions. *)
Theorem int_zero_iff_empty_subset :
  (snd (impl sc pt e X y_true w) = Ok (PyInt 0)
   <-> (forall i, ~ in_subset 1 i) \/ (forall i, ~ in_subset 0 i))
  /\ (exists issued,
         log (fst (impl sc pt e X y_true w))
         = log w ++ CallPredict X :: issued
         /\ ((exists g, In (Warn (RuntimeWarning_no_samples pt sc g)) issued)
             <-> (forall i, ~ in_subset 1 i) \/ (forall i, ~ in_subset 0 i))
         /\ ((exists i, in_subset 1 i) -> (exists i, in_subset 0 i) ->
             issued = division_warnings p1 p0)).
Proof.
  pose proof Hbinary as Hbin. apply is_binary_true in Hbin.
  assert (Hnil : forall g, y_given g pt z y_true yh = [] ->
                           forall i, ~ in_subset g i).
  { intros g Hg i [Hz Hyt].
    destruct (y_given_nil g pt z y_true yh Hy Hyh) as [Hno _].
    exact (Hno Hg i Hz Hyt). }
  assert (Hcons : forall g, y_given g pt z y_true yh <> [] ->
                            (forall i, ~ in_subset g i) -> False).
  { intros g Hg Hno. apply Hg.
    apply (subset_empty pt y_true z yh Hy Hyh g Hno). }
  assert (Hex : forall g, (exists i, in_subset g i) ->
                          (forall i, ~ in_subset g i) -> False).
  { intros g (i & Hi) Hno. exact (Hno i Hi). }
  destruct (y_given 1 pt z y_true yh) as [|a1 l1] eqn:G1.
  { rewrite (impl_group1_empty S sc pt e X y_true w z yh s'
               Hcol Hbin Hpred Hy Hyh G1).
    cbn [fst snd log]. split.
    - split; [intros _; left; now apply Hnil | reflexivity].
    - eexists. split; [rewrite <- app_assoc; reflexivity|]. split.
      + split; [intros _; left; now apply Hnil|].
        intros _. exists 1. now left.
      + intros H1 _. exfalso. apply (Hex 1 H1). now apply Hnil. }
  assert (N1 : y_given 1 pt z y_true yh <> []) by (rewrite G1; discriminate).
  destruct (y_given 0 pt z y_true yh) as [|a0 l0] eqn:G0.
  { rewrite (impl_group0_empty S sc pt e X y_true w z yh s'
               Hcol Hbin Hpred Hy Hyh N1 G0).
    cbn [fst snd log]. split.
    - split; [intros _; right; now apply Hnil | reflexivity].
    - eexists. split; [rewrite <- app_assoc; reflexivity|]. split.
      + split; [intros _; right; now apply Hnil|].
        intros _. exists 0. now left.
      + intros _ H0. exfalso. apply (Hex 0 H0). now apply Hnil. }
  assert (N0 : y_given 0 pt z y_true yh <> []) by (rewrite G0; discriminate).
  rewrite (impl_score S sc pt e X y_true w z yh s'
             Hcol Hbin Hpred Hy Hyh N1 N0).
  cbn [fst snd]. unfold scored; cbn [log].
  split.
  - split.
    + cbv zeta. destruct (negb (Np.isnan _)); discriminate.
    + intros [Hno | Hno]; exfalso;
        [exact (Hcons 1 N1 Hno) | exact (Hcons 0 N0 Hno)].
  - exists (division_warnings p1 p0).
    split; [rewrite <- app_assoc; reflexivity|]. split; [|reflexivity].
    split.
    + intros (g & Hin). exfalso. unfold division_warnings in Hin.
      apply in_map_iff in Hin. destruct Hin as (err & Herr & _).
      discriminate Herr.
    + intros [Hno | Hno]; exfalso;
        [exact (Hcons 1 N1 Hno) | exact (Hcons 0 N0 Hno)].
Qed.

End ValidCallMore.

(** ** Further properties: rates as conditional frequencies *)

Section Rows.

Variables (g pt : Z).

Lemma y_given_rows (z y yh : list Z) :
  y_given g pt z y yh
  = map (fun r : row => snd (snd r)) (filter (in_group g pt) (rows z y yh)).
Proof.
  unfold y_given, rows, Np.eq. revert y yh.
  induction z as [|a z IH]; intros [|b y] [|c yh]; try reflexivity.
  cbn [map Np.and Np.getitem combine filter]. unfold in_group at 1.
  cbn [fst snd].
  destruct ((a =? g) && (b =? pt))%bool; cbn [map snd]; rewrite IH;
    reflexivity.
Qed.

Lemma count_true_map {A : Type} (h : A -> bool) (l : list A) :
  Np.count_true (map h l) = List.length (filter h l).
Proof.
  unfold Np.count_true. induction l as [|x l IH]; [reflexivity|].
  cbn [map filter]. destruct (h x); cbn [List.length]; rewrite IH;
    reflexivity.
Qed.

Lemma mean_map {A : Type} (h : A -> bool) (l : list A) :
  Np.mean (map h l)
  = match l with
    | [] => Np.NaN
    | _ :: _ =>
        Np.Fin (Q2Qc (Z.of_nat (List.length (filter h l))
                      # Pos.of_nat (List.length l)))
    end.
Proof.
  destruct l as [|x l]; [reflexivity|].
  change (map h (x :: l)) with (h x :: map h l). unfold Np.mean.
  change (h x :: map h l) with (map h (x :: l)).
  rewrite count_true_map, length_map. reflexivity.
Qed.

(** X8.  The rate the code computes for a group is the conditional
    frequency of the docstring: among the rows with z = g and a positive
    label, the fraction predicted positive (nan when there is no such row).
    This holds for lists of any lengths. *)
Theorem rate_is_conditional_frequency (z y yh : list Z) :
  p_y1 g pt z y yh = cond_prob g pt (rows z y yh).
Proof.
  unfold p_y1, cond_prob, Np.eq. rewrite y_given_rows, map_map.
  rewrite (mean_map (fun r : row => snd (snd r) =? pt)).
  destruct (filter (in_group g pt) (rows z y yh)); reflexivity.
Qed.

Lemma filter_length_perm {A : Type} (h : A -> bool) (l l' : list A) :
  Permutation l l' -> Permutation (filter h l) (filter h l').
Proof.
  induction 1 as [|x l l' _ IH|x y l|l l' l'' _ IH1 _ IH2]; cbn [filter].
  - constructor.
  - destruct (h x); [now constructor | exact IH].
  - destruct (h x), (h y); try apply Permutation_refl. apply perm_swap.
  - eapply Permutation_trans; eassumption.
Qed.

Lemma cond_prob_perm (rs rs' : list row) :
  Permutation rs rs' -> cond_prob g pt rs = cond_prob g pt rs'.
Proof.
  intros Hp. unfold cond_prob.
  pose proof (filter_length_perm (in_group g pt) rs rs' Hp) as Hg.
  pose proof (filter_length_perm (predicted_positive pt) _ _ Hg) as Hh.
  apply Permutation_length in Hh. pose proof (Permutation_length Hg) as Hl.
  destruct (filter (in_group g pt) rs) as [|r l];
    destruct (filter (in_group g pt) rs') as [|r' l']; try discriminate Hl.
  - reflexivity.
  - rewrite Hh, Hl. reflexivity.
Qed.

Lemma y_given_length_perm (z y yh z' y' yh' : list Z) :
  Permutation (rows z y yh) (rows z' y' yh') ->
  List.length (y_given g pt z y yh) = List.length (y_given g pt z' y' yh').
Proof.
  intros Hp. rewrite !y_given_rows, !length_map.
  apply Permutation_length, filter_length_perm. exact Hp.
Qed.

(** Predictions that agree, on the rows with a positive label, on being the
    positive target select the same hits. *)
Lemma hits_agree (z y yh yh' : list Z) :
  List.length y = List.length z ->
  List.length yh = List.length z ->
  List.length yh' = List.length z ->
  (forall i, nth_error y i = Some pt ->
             (nth_error yh i = Some pt <-> nth_error yh' i = Some pt)) ->
  Np.eq (y_given g pt z y yh) pt = Np.eq (y_given g pt z y yh') pt.
Proof.
  unfold y_given, Np.eq. revert y yh yh'.
  induction z as [|a z IH]; intros [|b y] [|c yh] [|c' yh'] Hy Hyh Hyh' Hag;
    try discriminate; [reflexivity|].
  cbn [List.length] in Hy, Hyh, Hyh'.
  injection Hy as Hy. injection Hyh as Hyh. injection Hyh' as Hyh'.
  assert (Htl : forall i, nth_error y i = Some pt ->
                          (nth_error yh i = Some pt
                           <-> nth_error yh' i = Some pt)).
  { intros i. exact (Hag (Datatypes.S i)). }
  specialize (IH y yh yh' Hy Hyh Hyh' Htl).
  cbn [map Np.and Np.getitem].
  destruct (a =? g); cbn [andb]; [|exact IH].
  destruct (Z.eqb_spec b pt) as [Hb|Hb]; [|exact IH].
  cbn [map]. rewrite IH. f_equal.
  assert (H0 : Some c = Some pt <-> Some c' = Some pt).
  { apply (Hag 0%nat). cbn. now subst. }
  destruct (Z.eqb_spec c pt) as [Hc|Hc], (Z.eqb_spec c' pt) as [Hc'|Hc'];
    try reflexivity; exfalso.
  - apply Hc'. assert (E : Some c' = Some pt) by (apply H0; now subst).
    now injection E.
  - apply Hc. assert (E : Some c = Some pt) by (apply H0; now subst).
    now injection E.
Qed.

End Rows.

(** ** Further properties: what the score depends on *)

Section TwoCalls.

Variable S : Type.
Variable pt : Z.
Variables (sc sc' : column_id) (e e' : estimator S) (X X' : features).
Variables (y_true y_true' : list Z) (w w' : world S).
Variables (z yh z' yh' : list Z) (s1 s2 : S).

(** Two valid calls. *)
Hypothesis Hcol : get_sensitive_col sc X = Ok z.
Hypothesis Hcol' : get_sensitive_col sc' X' = Ok z'.
Hypothesis Hbinary : forall v, In v z -> v = 0 \/ v = 1.
Hypothesis Hbinary' : forall v, In v z' -> v = 0 \/ v = 1.
Hypothesis Hpred : predict e X (est w) = (s1, Predicted yh).
Hypothesis Hpred' : predict e' X' (est w') = (s2, Predicted yh').
Hypothesis Hy : List.length y_true = List.length z.
Hypothesis Hyh : List.length yh = List.length z.
Hypothesis Hy' : List.length y_true' = List.length z'.
Hypothesis Hyh' : List.length yh' = List.length z'.

(** Two valid calls with selections of the same sizes and the same rates
    hand back the same value. *)
Lemma same_result :
  (forall g, List.length (y_given g pt z y_true yh)
             = List.length (y_given g pt z' y_true' yh')) ->
  (forall g, p_y1 g pt z y_true yh = p_y1 g pt z' y_true' yh') ->
  snd (impl sc pt e X y_true w) = snd (impl sc' pt e' X' y_true' w').
Proof.
  intros Hlen Hrate.
  pose proof Hbinary as Hb. apply is_binary_true in Hb.
  pose proof Hbinary' as Hb'. apply is_binary_true in Hb'.
  pose proof (Hlen 1) as L1. pose proof (Hlen 0) as L0.
  destruct (y_given 1 pt z y_true yh) as [|a1 l1] eqn:G1;
    destruct (y_given 1 pt z' y_true' yh') as [|b1 m1] eqn:G1';
    try discriminate L1.
  { rewrite (impl_group1_empty S sc pt e X y_true w z yh s1
               Hcol Hb Hpred Hy Hyh G1).
    rewrite (impl_group1_empty S sc' pt e' X' y_true' w' z' yh' s2
               Hcol' Hb' Hpred' Hy' Hyh' G1').
    reflexivity. }
  assert (N1 : y_given 1 pt z y_true yh <> []) by (rewrite G1; discriminate).
  assert (N1' : y_given 1 pt z' y_true' yh' <> [])
    by (rewrite G1'; discriminate).
  destruct (y_given 0 pt z y_true yh) as [|a0 l0] eqn:G0;
    destruct (y_given 0 pt z' y_true' yh') as [|b0 m0] eqn:G0';
    try discriminate L0.
  { rewrite (impl_group0_empty S sc pt e X y_true w z yh s1
               Hcol Hb Hpred Hy Hyh N1 G0).
    rewrite (impl_group0_empty S sc' pt e' X' y_true' w' z' yh' s2
               Hcol' Hb' Hpred' Hy' Hyh' N1' G0').
    reflexivity. }
  assert (N0 : y_given 0 pt z y_true yh <> []) by (rewrite G0; discriminate).
  assert (N0' : y_given 0 pt z' y_true' yh' <> [])
    by (rewrite G0'; discriminate).
  rewrite (impl_score S sc pt e X y_true w z yh s1
             Hcol Hb Hpred Hy Hyh N1 N0).
  rewrite (impl_score S sc' pt e' X' y_true' w' z' yh' s2
             Hcol' Hb' Hpred' Hy' Hyh' N1' N0').
  cbn [snd]. rewrite (Hrate 1), (Hrate 0). reflexivity.
Qed.

(** X9.  The order of the rows does not matter: two valid calls whose
    datasets hold the same rows (sensitive value, true label, prediction),
    in any order, hand back the same value. *)
Theorem score_row_order :
  Permutation (rows z y_true yh) (rows z' y_true' yh') ->
  snd (impl sc pt e X y_true w) = snd (impl sc' pt e' X' y_true' w').
Proof.
  intros Hp. apply same_result.
  - intros g. apply y_given_length_perm. exact Hp.
  - intros g. rewrite !rate_is_conditional_frequency.
    apply cond_prob_perm. exact Hp.
Qed.

End TwoCalls.

Section SameData.

Variable S : Type.
Variable pt : Z.
Variables (sc : column_id) (e e' : estimator S) (X : features).
Variables (y_true : list Z) (w w' : world S).
Variables (z yh yh' : list Z) (s1 s2 : S).

Hypothesis Hcol : get_sensitive_col sc X = Ok z.
Hypothesis Hbinary : forall v, In v z -> v = 0 \/ v = 1.
Hypothesis Hpred : predict e X (est w) = (s1, Predicted yh).
Hypothesis Hpred' : predict e' X (est w') = (s2, Predicted yh').
Hypothesis Hy : List.length y_true = List.length z.
Hypothesis Hyh : List.length yh = List.length z.
Hypothesis Hyh' : List.length yh' = List.length z.

(** X10.  Only the rows with a positive label count, and of a prediction
    only whether it is the positive target: two estimators whose predictions
    agree in that respect on those rows get the same value on the same
    data, whatever they predict elsewhere. *)
Theorem score_ignores_negative_rows :
  (forall i, nth_error y_true i = Some pt ->
             (nth_error yh i = Some pt <-> nth_error yh' i = Some pt)) ->
  snd (impl sc pt e X y_true w) = snd (impl sc pt e' X y_true w').
Proof.
  intros Hag.
  assert (Hhits : forall g, Np.eq (y_given g pt z y_true yh) pt
                            = Np.eq (y_given g pt z y_true yh') pt).
  { intros g. apply hits_agree; assumption. }
  apply (same_result S pt sc sc e e' X X y_true y_true w w' z yh z yh' s1 s2);
    try assumption.
  - intros g. pose proof (f_equal (@List.length bool) (Hhits g)) as Hl.
    unfold Np.eq in Hl. rewrite !length_map in Hl. exact Hl.
  - intros g. unfold p_y1. rewrite (Hhits g). reflexivity.
Qed.

End SameData.

Section Dependence.

Variable S : Type.
Variable pt : Z.
Variables (sc sc' : column_id) (e e' : estimator S) (X X' : features).
Variables (y_true : list Z) (w w' : world S).

(** X11.  The features enter the score only through the sensitive column
    and through what predict answers: two calls with the same labels, the
    same extracted column (or the same lookup error) and the same answer of
    predict end with the same value or the same exception, whatever the
    other columns, the container and the column identifier are. *)
Theorem score_depends_on_column_and_predictions :
  get_sensitive_col sc X = get_sensitive_col sc' X' ->
  snd (predict e X (est w)) = snd (predict e' X' (est w')) ->
  snd (impl sc pt e X y_true w) = snd (impl sc' pt e' X' y_true w').
Proof.
  intros Hc Hp.
  unfold impl, bind, lift, call_predict, broadcast_operands, check_index,
    np_divide, raise, ret, warn.
  rewrite <- Hc.
  destruct (get_sensitive_col sc X) as [z|err]; [|reflexivity].
  destruct (is_binary z); cbn [negb]; [|reflexivity].
  destruct (predict e X (est w)) as [s1 r1].
  destruct (predict e' X' (est w')) as [s2 r2].
  cbn [snd] in Hp. subst r2. destruct r1 as [yh|code]; [|reflexivity].
  cbv beta iota.
  destruct (Np.broadcast z y_true) as [[zb yb]|]; cbv beta iota zeta;
    [|reflexivity].
  repeat match goal with
         | |- context [if ?b then _ else _] => destruct b; cbn [snd]
         end; reflexivity.
Qed.

End Dependence.

(** ** Further properties: extracting the sensitive column *)

Section Extraction.

Lemma column_id_eqb_eq (a b : column_id) :
  column_id_eqb a b = true <-> a = b.
Proof.
  destruct a as [i|s], b as [j|t]; cbn [column_id_eqb].
  - rewrite Z.eqb_eq. split; congruence.
  - split; discriminate.
  - split; discriminate.
  - rewrite String.eqb_eq. split; congruence.
Qed.

Lemma lookup_column_missing (cols : list (column_id * list Z))
  (label : column_id) :
  ~ In label (map fst cols) -> lookup_column cols label = None.
Proof.
  induction cols as [|[l col] cols IH]; [reflexivity|].
  cbn [map fst In lookup_column]. intros Hno.
  destruct (column_id_eqb l label) eqn:E.
  - exfalso. apply Hno. left. apply column_id_eqb_eq. exact E.
  - apply IH. auto.
Qed.

Lemma lookup_column_found (cols : list (column_id * list Z))
  (label : column_id) (col : list Z) :
  distinct (map fst cols) = true -> In (label, col) cols ->
  lookup_column cols label = Some col.
Proof.
  induction cols as [|[l c] cols IH]; [intros _ []|].
  cbn [map fst In lookup_column distinct]. intros Hd [E|Hin].
  - injection E as -> ->.
    assert (Hrefl : column_id_eqb label label = true)
      by (apply column_id_eqb_eq; reflexivity).
    rewrite Hrefl. reflexivity.
  - apply andb_true_iff in Hd. destruct Hd as [Hfresh Hd].
    destruct (column_id_eqb l label) eqn:E.
    + exfalso. apply column_id_eqb_eq in E. subst l.
      apply negb_true_iff in Hfresh.
      assert (Hex : existsb (column_id_eqb label) (map fst cols) = true).
      { apply existsb_exists. exists label. split.
        - change label with (fst (label, col)). apply in_map. exact Hin.
        - apply column_id_eqb_eq. reflexivity. }
      congruence.
    + apply IH; assumption.
Qed.

Lemma py_index_none (n : nat) (j : Z) :
  j < - Z.of_nat n \/ Z.of_nat n <= j -> py_index n j = None.
Proof.
  intros H. unfold py_index.
  destruct (Z.leb_spec 0 j), (Z.ltb_spec j (Z.of_nat n)),
    (Z.leb_spec (- Z.of_nat n) j), (Z.ltb_spec j 0); cbn; try reflexivity;
    lia.
Qed.

Lemma py_index_some (n : nat) (j : Z) :
  - Z.of_nat n <= j < Z.of_nat n ->
  py_index n j = Some (Z.to_nat (j mod Z.of_nat n))
  /\ (Z.to_nat (j mod Z.of_nat n) < n)%nat.
Proof.
  intros H. unfold py_index.
  assert (Hn : 0 < Z.of_nat n) by lia.
  pose proof (Z.mod_pos_bound j (Z.of_nat n) Hn) as Hm.
  split; [|lia].
  destruct (Z.leb_spec 0 j), (Z.ltb_spec j (Z.of_nat n)); cbn [andb];
    try lia.
  - rewrite Z.mod_small by lia. reflexivity.
  - destruct (Z.leb_spec (- Z.of_nat n) j), (Z.ltb_spec j 0); cbn [andb];
      try lia.
    rewrite <- (Z.mod_add j 1 (Z.of_nat n)) by lia.
    rewrite Z.mod_small by lia. f_equal. f_equal. lia.
Qed.

Lemma row_width (a : ndarray) (r : list Z) :
  In r (rows_of a) -> List.length r = ncols a.
Proof.
  intros Hin. pose proof (rectangular a) as Hrect.
  rewrite forallb_forall in Hrect. apply Nat.eqb_eq. apply Hrect. exact Hin.
Qed.

Lemma ndarray_column_in_range (a : ndarray) (j : Z) :
  - Z.of_nat (ncols a) <= j < Z.of_nat (ncols a) ->
  exists col,
    ndarray_column a j = Some col
    /\ List.length col = List.length (rows_of a)
    /\ (forall i r, nth_error (rows_of a) i = Some r ->
                    nth_error col i
                    = nth_error r (Z.to_nat (j mod Z.of_nat (ncols a)))).
Proof.
  intros Hj. destruct (py_index_some (ncols a) j Hj) as [Hidx Hlt].
  unfold ndarray_column. rewrite Hidx. eexists. split; [reflexivity|].
  split; [apply length_map|].
  intros i r Hr. rewrite nth_error_map, Hr. cbn [option_map].
  symmetry. apply nth_error_nth'.
  rewrite (row_width a r); [exact Hlt|].
  eapply nth_error_In. exact Hr.
Qed.

Variable S : Type.
Variables (pt : Z) (e : estimator S) (y_true : list Z) (w : world S).

(** X12.  When the sensitive column cannot be found the call raises the
    lookup error and does nothing else (no validation, no call of predict,
    the world untouched): a dataframe without a column under that label, a
    position outside the width of the array (also when the array has no
    row), a name used on an array. *)
Theorem missing_column_raises :
  (forall f label,
      ~ In label (map fst (columns f)) ->
      impl label pt e (DataFrame f) y_true w = (w, Raise KeyError))
  /\ (forall a j,
         j < - Z.of_nat (ncols a) \/ Z.of_nat (ncols a) <= j ->
         impl (ColIndex j) pt e (NdArray a) y_true w
         = (w, Raise IndexError))
  /\ (forall a name,
         impl (ColName name) pt e (NdArray a) y_true w
         = (w, Raise IndexError)).
Proof.
  split; [|split].
  - intros f label Hno. apply impl_column_error.
    cbn [get_sensitive_col]. unfold dataframe_column.
    rewrite (lookup_column_missing (columns f) label Hno). reflexivity.
  - intros a j Hout. apply impl_column_error.
    cbn [get_sensitive_col]. unfold ndarray_column.
    rewrite (py_index_none _ _ Hout). reflexivity.
  - intros a name. apply impl_column_error. reflexivity.
Qed.

(** X13.  When the column can be found it is the expected one: on an array
    of width n, a position j with -n <= j < n selects from every row the
    cell at j, counted from the end when j is negative, one entry per row;
    on a dataframe, a label (a name or an integer) selects the column stored
    under it. *)
Theorem sensitive_column_selected :
  (forall a j,
      - Z.of_nat (ncols a) <= j < Z.of_nat (ncols a) ->
      exists col,
        get_sensitive_col (ColIndex j) (NdArray a) = Ok col
        /\ List.length col = List.length (rows_of a)
        /\ (forall i r, nth_error (rows_of a) i = Some r ->
                        nth_error col i
                        = nth_error r (Z.to_nat (j mod Z.of_nat (ncols a)))))
  /\ (forall f label col,
         In (label, col) (columns f) ->
         get_sensitive_col label (DataFrame f) = Ok col).
Proof.
  split.
  - intros a j Hj.
    destruct (ndarray_column_in_range a j Hj) as (col & Hc & Hl & Hnth).
    exists col. cbn [get_sensitive_col]. rewrite Hc. auto.
  - intros f label col Hin. cbn [get_sensitive_col]. unfold dataframe_column.
    rewrite (lookup_column_found (columns f) label col (labels_distinct f)
               Hin).
    reflexivity.
Qed.

End Extraction.

(** ** The further properties on the sample inputs *)

Section MoreInstances.

Import Sample.

Local Abbreviation clf := counting_estimator.

Ltac rows i :=
  do 7 (try (destruct i as [|i]; cbn in *; try discriminate; auto)).



Lemma returned_in_unit_interval_witness :
  exists q,
    to_float (Float64 (Np.Fin (Q2Qc (1 # 2) / Q2Qc (2 # 2))%Qc)) = Np.Fin q
    /\ (0 <= q)%Qc /\ (q <= 1)%Qc.
Proof.
  apply (returned_in_unit_interval nat (ColIndex 1) 1 (clf y_hat6_uneven) X6
           y6 fresh).
  reflexivity.
Defined.

Lemma estimator_exception_witness :
  snd (impl (ColIndex 1) 1 (failing_estimator 42) X6 y6 fresh)
  = Raise (EstimatorError 42).
Proof.
  apply (estimator_exception nat (ColIndex 1) 1 (failing_estimator 42) X6 y6
           fresh z6 42 eq_refl).
  split; [exact binary_z6 | reflexivity].
Defined.


Lemma zero_iff_one_zero_rate_witness :
  snd (impl (ColName "sex") 1 (clf [1; 0]) X2 y2 fresh)
  = Ok (Float64 Np.zero).
Proof.
  apply (zero_iff_one_zero_rate nat (ColName "sex") 1 (clf [1; 0]) X2 y2
           fresh z2 [1; 0] 1%nat eq_refl binary_z2 eq_refl eq_refl eq_refl).
  - exists 1%nat. split; reflexivity.
  - exists 0%nat. split; reflexivity.
  - left. split; [reflexivity|].
    intros H. apply zero_neq_one. symmetry. exact H.
Defined.

Lemma int_zero_iff_empty_subset_witness :
  snd (impl (ColIndex 1) 1 (clf y_hat6) X6 y6_no_group0 fresh)
  = Ok (PyInt 0).
Proof.
  apply (int_zero_iff_empty_subset nat (ColIndex 1) 1 (clf y_hat6) X6
           y6_no_group0 fresh z6 y_hat6 1%nat eq_refl binary_z6 eq_refl
           eq_refl eq_refl).
  right. intros i [Hz Hy]. rows i.
Defined.

Lemma score_row_order_witness :
  snd (impl (ColIndex 1) 1 (clf y_hat6_uneven) X6 y6 fresh)
  = snd (impl (ColIndex (-1)) 1 (clf y_hat6_uneven_reversed) X6_reversed
           y6_reversed fresh).
Proof.
  apply (score_row_order nat 1 (ColIndex 1) (ColIndex (-1))
           (clf y_hat6_uneven) (clf y_hat6_uneven_reversed) X6 X6_reversed
           y6 y6_reversed fresh fresh z6 y_hat6_uneven (rev z6)
           y_hat6_uneven_reversed 1%nat 1%nat eq_refl eq_refl binary_z6);
    try reflexivity.
  - intros v Hv. cbn in Hv. intuition.
  - apply (Permutation_rev (rows z6 y6 y_hat6_uneven)).
Defined.

Lemma score_ignores_negative_rows_witness :
  snd (impl (ColIndex 1) 1 (clf y_hat6) X6 y6 fresh)
  = snd (impl (ColIndex 1) 1 (clf y_hat6_other) X6 y6 fresh).
Proof.
  apply (score_ignores_negative_rows nat 1 (ColIndex 1) (clf y_hat6)
           (clf y_hat6_other) X6 y6 fresh fresh z6 y_hat6 y_hat6_other
           1%nat 1%nat eq_refl binary_z6 eq_refl eq_refl eq_refl eq_refl
           eq_refl).
  intros i Hy. rows i; split; intros H; (reflexivity || discriminate H).
Defined.

Lemma score_depends_on_column_and_predictions_witness :
  snd (impl (ColIndex 1) 1 (clf y_hat6) X6 y6 fresh)
  = snd (impl (ColName "sex") 1 (clf y_hat6) X6_frame y6 fresh).
Proof.
  apply (score_depends_on_column_and_predictions nat 1 (ColIndex 1)
           (ColName "sex") (clf y_hat6) (clf y_hat6) X6 X6_frame y6 fresh
           fresh); reflexivity.
Defined.

Lemma missing_column_raises_witness :
  impl (ColName "gender") 1 (clf [0; 0]) X2 y2 fresh = (fresh, Raise KeyError)
  /\ impl (ColIndex 1) 1 (clf [0; 0]) X2 y2 fresh = (fresh, Raise KeyError)
  /\ impl (ColIndex 2) 1 (clf y_hat6) X6 y6 fresh = (fresh, Raise IndexError)
  /\ impl (ColIndex 5) 1 (clf []) (NdArray A0) [] fresh
     = (fresh, Raise IndexError).
Proof.
  destruct (missing_column_raises nat 1 (clf [0; 0]) y2 fresh)
    as (Hlabel & _).
  destruct (missing_column_raises nat 1 (clf y_hat6) y6 fresh)
    as (_ & Hpos & _).
  destruct (missing_column_raises nat 1 (clf []) [] fresh)
    as (_ & Hpos0 & _).
  split; [|split; [|split]].
  - apply (Hlabel F2 (ColName "gender")).
    cbn. intros [H|[H|[]]]; discriminate H.
  - apply (Hlabel F2 (ColIndex 1)).
    cbn. intros [H|[H|[]]]; discriminate H.
  - apply (Hpos A6 2). right. cbn. lia.
  - apply (Hpos0 A0 5). right. cbn. lia.
Defined.

Lemma sensitive_column_selected_witness :
  (exists col,
      get_sensitive_col (ColIndex (-1)) X6 = Ok col
      /\ List.length col = 6%nat
      /\ (forall i r,
             nth_error [[7; 0]; [4; 0]; [9; 0]; [2; 1]; [5; 1]; [8; 1]] i
             = Some r ->
             nth_error col i = nth_error r 1))
  /\ get_sensitive_col (ColName "sex") X2 = Ok [0; 1]
  /\ get_sensitive_col (ColIndex 1) (DataFrame F2_numbered) = Ok [0; 1].
Proof.
  destruct sensitive_column_selected as [Harr Hframe]. split; [|split].
  - apply (Harr A6 (-1)). cbn. lia.
  - apply (Hframe F2 (ColName "sex")). cbn. auto.
  - apply (Hframe F2_numbered (ColIndex 1)). cbn. auto.
Defined.

End MoreInstances.
